(** * Content loader and view-state router of the portfolio site

    A shallow embedding of [lib/posts.ts] (the markdown loader) and of the
    routing and derived-view logic of [app/HomeClient.tsx], with the
    properties the design document states about them; then of
    [lib/utils.ts], the navigation bar, the page of one post and the
    sitemap, with properties read off the code. *)

From Stdlib Require Import String Ascii List ZArith Lia Bool.
From Stdlib Require Import Sorted Permutation RelationClasses.
From Stdlib Require Import QArith Qminmax.
Import ListNotations.

Close Scope Q_scope.

Local Open Scope string_scope.
Local Open Scope list_scope.

(** ** The JavaScript primitives the two files rely on

    Strings are sequences of code units, modelled by [string]; [undefined]
    and [null] are [None]. *)
Module JS.

(** [a < b] on two strings: lexicographic on code units, a proper prefix
    being smaller. *)
Definition str_lt (a b : string) : bool := String.ltb a b.

(** [a >= b] on two strings is the negation of [a < b]. *)
Definition str_ge (a b : string) : bool := negb (str_lt a b).

(** [s.slice(1)]. *)
Definition slice1 (s : string) : string :=
  match s with
  | EmptyString => EmptyString
  | String _ t => t
  end.

(** [s.split(sep)] for a one-character separator: never empty, and the
    empty string splits into one empty part. *)
Fixpoint split (sep : ascii) (s : string) : list string :=
  match s with
  | EmptyString => [EmptyString]
  | String c t =>
      if Ascii.eqb c sep then EmptyString :: split sep t
      else match split sep t with
           | [] => [String c EmptyString]
           | p :: ps => String c p :: ps
           end
  end.

(** [s.includes(sep)] for a one-character [sep]. *)
Fixpoint has (sep : ascii) (s : string) : bool :=
  match s with
  | EmptyString => false
  | String c t => Ascii.eqb c sep || has sep t
  end.

(** [s.endsWith(suffix)]: some tail of [s] is [suffix]. *)
Fixpoint endsWith (s suffix : string) : bool :=
  if String.eqb s suffix then true
  else match s with
       | EmptyString => false
       | String _ t => endsWith t suffix
       end.

(** [s.replace(/suffix$/, '')] for a literal [suffix]: the pattern is
    anchored at the end of the input, so at most the final occurrence is
    removed. *)
Fixpoint replace_at_end (s suffix : string) : string :=
  if String.eqb s suffix then EmptyString
  else match s with
       | EmptyString => EmptyString
       | String c t => String c (replace_at_end t suffix)
       end.

(** Truthiness of a possibly missing string: [undefined], [null] and the
    empty string are falsy. *)
Definition truthy (v : option string) : bool :=
  match v with
  | Some s => negb (String.eqb s EmptyString)
  | None => false
  end.

(** [v || d] where [v] is a possibly missing string. *)
Definition or_str (v : option string) (d : string) : string :=
  match v with
  | Some s => if String.eqb s EmptyString then d else s
  | None => d
  end.

(** [v || d] where [v] is a possibly missing array: every array, the
    empty one included, is truthy. *)
Definition or_arr {A : Type} (v : option (list A)) (d : list A) : list A :=
  match v with
  | Some l => l
  | None => d
  end.

(** [names.includes(s)]. *)
Definition includes (names : list string) (s : string) : bool :=
  existsb (String.eqb s) names.

(** [l.findIndex(f)]: the first index whose element satisfies [f], or
    [-1]. *)
Fixpoint findIndex {A : Type} (f : A -> bool) (l : list A) : Z :=
  match l with
  | [] => (-1)%Z
  | x :: t =>
      if f x then 0%Z
      else let r := findIndex f t in
           if (r <? 0)%Z then (-1)%Z else (r + 1)%Z
  end.

(** [l[i]] for an integer [i]: [undefined] outside the array. *)
Definition at_index {A : Type} (l : list A) (i : Z) : option A :=
  if (i <? 0)%Z then None else nth_error l (Z.to_nat i).

(** *** [Array.prototype.sort]

    The language leaves the order of the comparator calls to the engine.
    The model is insertion into a sorted prefix, the elements taken from
    left to right: the new element goes in front of the first element it
    compares below ([cmp x e < 0]), which is where the binary insertion of
    the engine's sort puts it. *)
Section Sort.
Context {A : Type}.
Variable cmp : A -> A -> Z.

Fixpoint insert (x : A) (l : list A) : list A :=
  match l with
  | [] => [x]
  | e :: t =>
      if (cmp x e <? 0)%Z then x :: e :: t
      else e :: insert x t
  end.

Definition sort (l : list A) : list A :=
  fold_left (fun acc x => insert x acc) l [].
End Sort.

End JS.


(** ** [lib/posts.ts] *)
Module Posts.
Import JS.

Record Post := mkPost {
  slug : string;
  title : string;
  date : string;
  readTime : string;
  category : string;
  tags : list string;
  excerpt : string;
  content : string;
  html : string
}.

(** A thrown value. *)
Definition exn := string.

(** Calls that may throw. *)
Inductive result (A : Type) : Type :=
| Ok (a : A)
| Throw (e : exn).
Arguments Ok {A} a.
Arguments Throw {A} e.

Definition bind {A B : Type} (r : result A) (k : A -> result B) : result B :=
  match r with
  | Ok a => k a
  | Throw e => Throw e
  end.

Notation "x <- r ;; k" := (bind r (fun x => k))
  (at level 61, r at next level, right associativity).

(** [l.map(f)] where the callback may throw: the elements are visited from
    left to right and the first throw leaves the whole call. *)
Fixpoint map_throwing {A B : Type} (f : A -> result B) (l : list A)
  : result (list B) :=
  match l with
  | [] => Ok []
  | a :: t =>
      b <- f a ;;
      bs <- map_throwing f t ;;
      Ok (b :: bs)
  end.

(** The [date] key as the front-matter parser delivers it: a YAML timestamp
    becomes a [Date], given here by its [toISOString()]; anything else
    stays a string. *)
Inductive DateValue : Type :=
| DateObject (iso : string)
| DateString (s : string).

(** The [data] object of a parsed file whose keys, where present, have the
    types the loader expects; a key that is missing (or [null]) is
    [None]. The category is any string: the parser does not know the three
    labels. *)
Record FrontMatter := mkFrontMatter {
  fm_slug : option string;
  fm_title : option string;
  fm_date : option DateValue;
  fm_readTime : option string;
  fm_category : option string;
  fm_tags : option (list string);
  fm_excerpt : option string
}.

(** The file system as the loader sees it. *)
Record FileSystem := mkFileSystem {
  readdirSync : string -> result (list string);
  readFileSync : string -> result string
}.

(** One line written with [console.error(message, error)]. *)
Definition LogLine : Type := string * exn.

(** [path.join(dir, name)] for a directory and a bare file name. *)
Definition path_join (dir name : string) : string := dir ++ "/" ++ name.

(** [data.date instanceof Date ? data.date.toISOString().split('T')[0]
                               : (data.date || '')]. *)
Definition date_of (d : option DateValue) : string :=
  match d with
  | Some (DateObject iso) => nth 0 (split "T"%char iso) EmptyString
  | Some (DateString s) => or_str (Some s) ""
  | None => ""
  end.

(** The comparator of every [sort] call on posts:
    [(a, b) => (a.date < b.date ? 1 : -1)]. *)
Definition by_date_desc (a b : Post) : Z :=
  if str_lt (date a) (date b) then 1%Z else (-1)%Z.

(** [a.date >= b.date]: [a] is not older than [b]. *)
Definition not_older (a b : Post) : Prop := str_ge (date a) (date b) = true.

(** The three labels of the [category] type of [Post]. *)
Definition category_labels : list string := ["rust"; "blockchain"; "personal"].

(** The object literal of lines 53 to 63. *)
Definition post_of (fileName : string) (data : FrontMatter)
  (content html : string) : Post :=
  {| slug := or_str (fm_slug data) (replace_at_end fileName ".md");
     title := or_str (fm_title data) "";
     date := date_of (fm_date data);
     readTime := or_str (fm_readTime data) "5 min";
     category := or_str (fm_category data) "personal";
     tags := or_arr (fm_tags data) [];
     excerpt := or_str (fm_excerpt data) "";
     content := content;
     html := html |}.

Section Loader.

(** [process.cwd()]. *)
Variable cwd : string.
Variable fs : FileSystem.
(** [matter] of gray-matter: front-matter and body of a file's text. *)
Variable matter : string -> result (FrontMatter * string).
(** [marked] with [gfm] and [breaks] set. *)
Variable marked : string -> string.

Definition postsDirectory : string := path_join cwd "content/posts".

(** The callback of [map]. *)
Definition load_file (fileName : string) : result Post :=
  let fullPath := path_join postsDirectory fileName in
  fileContents <- readFileSync fs fullPath ;;
  parsed <- matter fileContents ;;
  let (data, content) := parsed in
  let html := marked content in
  Ok (post_of fileName data content html).

(** The body of the [try] block. *)
Definition try_getAllPosts : result (list Post) :=
  fileNames <- readdirSync fs postsDirectory ;;
  loaded <- map_throwing load_file
              (filter (fun fileName => endsWith fileName ".md") fileNames) ;;
  Ok (sort by_date_desc loaded).

(** [getAllPosts()]: the returned posts and what was written to the
    console. *)
Definition getAllPosts : list Post * list LogLine :=
  match try_getAllPosts with
  | Ok posts => (posts, [])
  | Throw error => ([], [("Error reading posts:", error)])
  end.

(** [getPostBySlug(slug)]; a post is an object, hence truthy, so
    [find(...) || null] is the result of [find]. [getAllPosts] does not
    throw, which leaves the [catch] branch without a caller. *)
Definition getPostBySlug (s : string) : option Post * list LogLine :=
  let (posts, out) := getAllPosts in
  (find (fun post => String.eqb (slug post) s) posts, out).

End Loader.

End Posts.

(** ** [app/HomeClient.tsx] *)
Module HomeClient.
Import JS.
Import Posts.

(** [Route]: a state name, or an object with the slug of a post. *)
Inductive Route : Type :=
| home
| roadmap
| skills
| log
| post (s : string)
| manifesto.

(** The category facet of the log list. *)
Inductive Facet : Type :=
| all
| rust
| blockchain
| personal.

Definition facet_label (c : Facet) : string :=
  match c with
  | all => "all"
  | rust => "rust"
  | blockchain => "blockchain"
  | personal => "personal"
  end.

(** The five names tested by [includes] in both parsers. *)
Definition state_names : list string :=
  ["home"; "roadmap"; "skills"; "log"; "manifesto"].

(** [name as Route] for a name that passed the [includes] test. *)
Definition route_of_name (name : string) : option Route :=
  if String.eqb name "home" then Some home
  else if String.eqb name "roadmap" then Some roadmap
  else if String.eqb name "skills" then Some skills
  else if String.eqb name "log" then Some log
  else if String.eqb name "manifesto" then Some manifesto
  else None.

(** The string form of a parameterless route. *)
Definition route_string (r : Route) : option string :=
  match r with
  | home => Some "home"
  | roadmap => Some "roadmap"
  | skills => Some "skills"
  | log => Some "log"
  | manifesto => Some "manifesto"
  | post _ => None
  end.

(** *** The address as the browser keeps it

    The address given to [pushState] goes through the URL parser: code
    units from 0 to 32 are cut off at both ends, tabs and newlines are
    taken out everywhere, and what follows the first [#] is the fragment,
    in which the code units of the fragment percent-encode set are
    written [%XX]. Text outside ASCII is held in a [string] as its UTF-8
    bytes, which is what the encoder writes. Nothing in the component
    decodes a fragment. *)
Definition c0_or_space (c : ascii) : bool := (N_of_ascii c <=? 32)%N.

Definition tab_or_newline (c : ascii) : bool :=
  ((N_of_ascii c =? 9) || (N_of_ascii c =? 10) || (N_of_ascii c =? 13))%N.

(** The fragment percent-encode set: the C0 controls, the space, the
    double quote, [<], [>], the backquote, and everything above [~]. *)
Definition fragment_encoded (c : ascii) : bool :=
  ((N_of_ascii c <=? 32) || (126 <? N_of_ascii c) ||
   (N_of_ascii c =? 34) || (N_of_ascii c =? 60) ||
   (N_of_ascii c =? 62) || (N_of_ascii c =? 96))%N.

Definition hex_digit (d : N) : ascii :=
  nth (N.to_nat d) (list_ascii_of_string "0123456789ABCDEF") "0"%char.

Definition percent_encode (c : ascii) : string :=
  String "%"%char
    (String (hex_digit (N_of_ascii c / 16))
       (String (hex_digit (N_of_ascii c mod 16)) EmptyString)).

Fixpoint encode_fragment (s : string) : string :=
  match s with
  | EmptyString => EmptyString
  | String c t =>
      if fragment_encoded c then (percent_encode c ++ encode_fragment t)%string
      else String c (encode_fragment t)
  end.

Fixpoint strip_leading (s : string) : string :=
  match s with
  | EmptyString => EmptyString
  | String c t => if c0_or_space c then strip_leading t else s
  end.

Fixpoint strip_trailing (s : string) : string :=
  match s with
  | EmptyString => EmptyString
  | String c t =>
      let t' := strip_trailing t in
      if String.eqb t' EmptyString && c0_or_space c then EmptyString
      else String c t'
  end.

Fixpoint remove_tab_newline (s : string) : string :=
  match s with
  | EmptyString => EmptyString
  | String c t =>
      if tab_or_newline c then remove_tab_newline t
      else String c (remove_tab_newline t)
  end.

(** What follows the first [#], if there is one. *)
Fixpoint after_hash (s : string) : option string :=
  match s with
  | EmptyString => None
  | String c t => if Ascii.eqb c "#" then Some t else after_hash t
  end.

(** [window.location.hash] once the address is [url]: empty without a
    fragment or with an empty one, else [#] and the encoded fragment. *)
Definition url_hash (url : string) : string :=
  match after_hash (remove_tab_newline (strip_trailing (strip_leading url))) with
  | Some fragment =>
      if String.eqb (encode_fragment fragment) EmptyString then EmptyString
      else String "#"%char (encode_fragment fragment)
  | None => EmptyString
  end.

(** [kept_as_written s]: no code unit of [s] is in the fragment
    percent-encode set, so the parser leaves [s] as it is. *)
Fixpoint kept_as_written (s : string) : bool :=
  match s with
  | EmptyString => true
  | String c t => negb (fragment_encoded c) && kept_as_written t
  end.

(** What the component owns, and the part of [window] it touches:
    [location_hash] is [window.location.hash], [history] the fragments of
    the entries added with [pushState], the latest first. *)
Record World := mkWorld {
  route : Route;
  category : Facet;
  location_hash : string;
  history : list string
}.

Definition setRoute (r : Route) (w : World) : World :=
  {| route := r; category := category w;
     location_hash := location_hash w; history := history w |}.

(** [window.history.pushState(null, '', url)]. *)
Definition pushState (url : string) (w : World) : World :=
  {| route := route w; category := category w;
     location_hash := url_hash url; history := url_hash url :: history w |}.

(** The branch shared by the two parsers (lines 42 to 47 and 68 to 73):
    the route to set, if any. *)
Definition parse_parts (hash : string) : option Route :=
  let parts := split "/"%char hash in
  let first := nth 0 parts EmptyString in
  if String.eqb first "log" && truthy (nth_error parts 1)
  then Some (post (nth 1 parts EmptyString))
  else if includes state_names first then route_of_name first
  else None.

(** The fragment grammar in the words of the design document, for the text
    after the [#]: one of the five bare state names, or [log/] followed by
    a slug. It is what the claims about unrecognized fragments quantify
    over; the parsers above do not use it. *)
Definition spec_fragment_grammar (hash : string) : bool :=
  includes state_names hash ||
  (String.prefix "log/" hash && negb (String.eqb hash "log/")).

(** The state of [useState<Route>('home')]. *)
Definition initial_route : Route := home.

(** The effect that runs once on mount (lines 39 to 49). *)
Definition init_from_hash (w : World) : World :=
  let hash := slice1 (location_hash w) in
  if truthy (Some hash) then
    match parse_parts hash with
    | Some r => setRoute r w
    | None => w
    end
  else w.

(** The effect that follows [route] (lines 52 to 58). *)
Definition sync_hash (w : World) : World :=
  match route_string (route w) with
  | Some name => pushState ("#" ++ name) w
  | None =>
      match route w with
      | post s => pushState ("#log/" ++ s) w
      | _ => w
      end
  end.

(** [handleHashChange] (lines 62 to 74). *)
Definition handleHashChange (w : World) : World :=
  let hash := slice1 (location_hash w) in
  if negb (truthy (Some hash)) then setRoute home w
  else
    match parse_parts hash with
    | Some r => setRoute r w
    | None => w
    end.

(** The browser moves to the fragment [h] (with its [#], or empty) and
    fires [hashchange]. *)
Definition hashchange_event (h : string) (w : World) : World :=
  handleHashChange
    {| route := route w; category := category w;
       location_hash := h; history := history w |}.

(** The page is opened at the fragment [h]: the state is the initial one
    when the mount effect reads the fragment. *)
Definition open_page (h : string) : World :=
  init_from_hash
    {| route := initial_route; category := all;
       location_hash := h; history := [] |}.

(** [Object.is(r, current)] for the value [r] given to [setRoute]: a
    string is the one held when it is the same name; the object of a post
    route is made anew at every call, so it is never the one held. *)
Definition same_state (r current : Route) : bool :=
  match route_string r, route_string current with
  | Some a, Some b => String.eqb a b
  | _, _ => false
  end.

(** A handler calls [setRoute(r)]. Given the state it holds already, the
    component is not rendered again and the effect, whose dependency is
    [route], does not run; otherwise the state is replaced and the effect
    writes the fragment. *)
Definition navigate (r : Route) (w : World) : World :=
  if same_state r (route w) then w else sync_hash (setRoute r w).

Section Derived.

(** The [posts] prop. *)
Variable posts : list Post.

(** [filteredPosts] (lines 113 to 117). *)
Definition filteredPosts (c : Facet) : list Post :=
  let sorted := sort by_date_desc posts in
  if String.eqb (facet_label c) "all" then sorted
  else filter (fun p => String.eqb (Posts.category p) (facet_label c)) sorted.

(** [currentPost] (lines 119 to 124). *)
Definition currentPost (r : Route) : option Post :=
  match r with
  | post s => find (fun p => String.eqb (slug p) s) posts
  | _ => None
  end.

Record Navigation := mkNavigation {
  prev : option Post;
  next : option Post
}.

(** [postNavigation] (lines 126 to 136). *)
Definition postNavigation (current : option Post) : Navigation :=
  match current with
  | None => {| prev := None; next := None |}
  | Some cur =>
      let sorted := sort by_date_desc posts in
      let currentIndex :=
        findIndex (fun p => String.eqb (slug p) (slug cur)) sorted in
      {| prev := if (currentIndex <? Z.of_nat (List.length sorted) - 1)%Z
                 then at_index sorted (currentIndex + 1)
                 else None;
         next := if (currentIndex >? 0)%Z
                 then at_index sorted (currentIndex - 1)
                 else None |}
  end.

(** The post section of the page, [{currentPost && (...)}]: what it shows
    of the post, and the two pagination buttons by the slug they open. *)
Record PostSection := mkPostSection {
  shown_title : string;
  shown_date : string;
  shown_readTime : string;
  shown_category : string;
  shown_tags : list string;
  shown_html : string;
  previous_button : option string;
  next_button : option string
}.

Definition render_post_section (r : Route) : option PostSection :=
  match currentPost r with
  | None => None
  | Some cur =>
      let nav := postNavigation (Some cur) in
      Some {| shown_title := title cur;
              shown_date := date cur;
              shown_readTime := readTime cur;
              shown_category := Posts.category cur;
              shown_tags := tags cur;
              shown_html := html cur;
              previous_button := option_map slug (prev nav);
              next_button := option_map slug (next nav) |}
  end.

End Derived.

End HomeClient.

(** ** [lib/utils.ts] *)
Module Utils.
Import JS.

(** [classes.filter(Boolean)] on strings that may be [false], [null] or
    [undefined] (all three are [None]): the truthy ones, in order. *)
Fixpoint filter_Boolean (classes : list (option string)) : list string :=
  match classes with
  | [] => []
  | Some s :: rest =>
      if truthy (Some s) then s :: filter_Boolean rest
      else filter_Boolean rest
  | None :: rest => filter_Boolean rest
  end.

(** [cn(...classes)]. *)
Definition cn (classes : list (option string)) : string :=
  String.concat " " (filter_Boolean classes).

(** What [getFullYear()], [getMonth()] and [getDate()] return for a valid
    [Date]: the local year, the month from 0, the day of the month. *)
Record JSDate := mkJSDate {
  getFullYear : Z;
  getMonth : Z;
  getDate : Z
}.

(** The day arithmetic of the language standard, on which [Date.UTC]
    rests. *)
Definition DaysInYear (y : Z) : Z :=
  if negb (y mod 4 =? 0)%Z then 365%Z
  else if negb (y mod 100 =? 0)%Z then 366%Z
  else if negb (y mod 400 =? 0)%Z then 365%Z
  else 366%Z.

Definition DayFromYear (y : Z) : Z :=
  (365 * (y - 1970) + (y - 1969) / 4 - (y - 1901) / 100 + (y - 1601) / 400)%Z.

Definition InLeapYear (y : Z) : Z :=
  if (DaysInYear y =? 366)%Z then 1%Z else 0%Z.

(** The day within the year on which month [mn] (from 0) begins. *)
Definition month_start (mn leap : Z) : Z :=
  if (mn =? 0)%Z then 0%Z
  else if (mn =? 1)%Z then 31%Z
  else if (mn =? 2)%Z then (59 + leap)%Z
  else if (mn =? 3)%Z then (90 + leap)%Z
  else if (mn =? 4)%Z then (120 + leap)%Z
  else if (mn =? 5)%Z then (151 + leap)%Z
  else if (mn =? 6)%Z then (181 + leap)%Z
  else if (mn =? 7)%Z then (212 + leap)%Z
  else if (mn =? 8)%Z then (243 + leap)%Z
  else if (mn =? 9)%Z then (273 + leap)%Z
  else if (mn =? 10)%Z then (304 + leap)%Z
  else (334 + leap)%Z.

Definition MakeDay (year month date : Z) : Z :=
  let ym := (year + month / 12)%Z in
  let mn := (month mod 12)%Z in
  (DayFromYear ym + month_start mn (InLeapYear ym) + date - 1)%Z.

Definition msPerDay : Z := (24 * 60 * 60 * 1000)%Z.

(** [Date.UTC(year, month, date)]: a year from 0 to 99 stands for the
    year 1900 later. For the dates a [Date] can hold the final clipping of
    the time value changes nothing. *)
Definition Date_UTC (year month date : Z) : Z :=
  let yr := if ((0 <=? year) && (year <=? 99))%Z then (1900 + year)%Z
            else year in
  (MakeDay yr month date * msPerDay)%Z.

(** [daysBetween(a, b)]. Both time values are whole days, so the division
    is exact and [Math.floor] is the division on integers. *)
Definition daysBetween (a b : JSDate) : Z :=
  let ms := msPerDay in
  let ua := Date_UTC (getFullYear a) (getMonth a) (getDate a) in
  let ub := Date_UTC (getFullYear b) (getMonth b) (getDate b) in
  (Z.max 0 ((ub - ua) / ms) + 1)%Z.

(** [clamp(n, min, max)] on finite numbers; a finite number is a
    rational, and [Math.min] and [Math.max] return one of their
    arguments. *)
Definition clamp (n min max : Q) : Q := Qmin max (Qmax min n).

End Utils.

(** ** Components: [Nav.tsx], [ProgressBar], and the page body of
    [HomeClient.tsx] *)
Module Components.
Import JS.
Import Posts.
Import HomeClient.

(** [route === name] for a route that may be an object: only a string
    route can be equal to a name. *)
Definition route_is (r : Route) (name : string) : bool :=
  match route_string r with
  | Some n => String.eqb n name
  | None => false
  end.

(** [active] of [Nav]:
    [typeof route === 'string' && route === key]. *)
Definition active (r : Route) (key : string) : bool :=
  match route_string r with
  | Some n => String.eqb n key
  | None => false
  end.

(** The keys of the four links of the navigation bar, in order. *)
Definition nav_keys : list string := ["home"; "roadmap"; "log"; "skills"].


(** [filteredPosts.slice(0, 3)], the items of the log list on the home
    view. *)
Definition home_preview (posts : list Post) (c : Facet) : list Post :=
  firstn 3 (filteredPosts posts c).

(** The blocks of [<main>] that depend on the route, with what they show
    of the posts. *)
Inductive Block : Type :=
| HomeBlock (preview : list Post)
| RoadmapBlock
| SkillsBlock
| LogBlock (items : list Post)
| ManifestoBlock
| PostBlock (section : PostSection).

(** [{cond && (...)}]. *)
Definition when (cond : bool) (b : Block) : list Block :=
  if cond then [b] else [].

(** The body of [<main>], in the order of the JSX. *)
Definition render_main (posts : list Post) (r : Route) (c : Facet)
  : list Block :=
  when (route_is r "home") (HomeBlock (home_preview posts c)) ++
  when (route_is r "roadmap") RoadmapBlock ++
  when (route_is r "skills") SkillsBlock ++
  when (route_is r "log") (LogBlock (filteredPosts posts c)) ++
  when (route_is r "manifesto") ManifestoBlock ++
  match render_post_section posts r with
  | Some section => [PostBlock section]
  | None => []
  end.

(** [onOpen] of both log lists: [(slug) => setRoute({ post: slug })]. *)
Definition onOpen (s : string) (w : World) : World := setRoute (post s) w.

End Components.

(** ** The page of one post, [app/log/[slug]/page.tsx], and the sitemap *)
Module BlogPost.
Import JS.
Import Posts.

Definition siteUrl : string := "https://scrapychain.github.io/ashutosh-rana-dev".

(** The fields of the returned metadata that depend on the post; a field
    the object does not have is [None]. *)
Record Metadata := mkMetadata {
  md_title : string;
  md_description : option string;
  og_url : option string;
  og_publishedTime : option string;
  og_tags : option (list string)
}.

(** What [BlogPostPage] gives: [notFound()] throws the not-found signal
    of the framework; otherwise the redirecting page. *)
Inductive PageResult : Type :=
| NotFound
| RedirectPage (refresh_url heading paragraph link : string).

(** An entry of the sitemap; [lastModified] is the date string given to
    [new Date], or [None] for [new Date()], the time of the build. *)
Record SitemapEntry := mkSitemapEntry {
  url : string;
  lastModified : option string;
  changeFrequency : string;
  priority : Q
}.

Section Pages.
Variable cwd : string.
Variable fs : FileSystem.
Variable matter : string -> result (FrontMatter * string).
Variable marked : string -> string.

(** [generateStaticParams()]: the [slug] of each parameter object. *)
Definition generateStaticParams : list string :=
  map slug (fst (getAllPosts cwd fs matter marked)).

(** [generateMetadata({ params })]. *)
Definition generateMetadata (params_slug : string) : Metadata :=
  let posts := fst (getAllPosts cwd fs matter marked) in
  match find (fun p => String.eqb (slug p) params_slug) posts with
  | None =>
      {| md_title := "Post Not Found"; md_description := None;
         og_url := None; og_publishedTime := None; og_tags := None |}
  | Some post =>
      let postUrl := (siteUrl ++ "/log/" ++ slug post)%string in
      {| md_title := (title post ++ " - Ashutosh Rana")%string;
         md_description := Some (excerpt post);
         og_url := Some postUrl;
         og_publishedTime := Some (date post);
         og_tags := Some (tags post) |}
  end.

(** [BlogPostPage({ params })]. *)
Definition BlogPostPage (params_slug : string) : PageResult :=
  let posts := fst (getAllPosts cwd fs matter marked) in
  match find (fun p => String.eqb (slug p) params_slug) posts with
  | None => NotFound
  | Some post =>
      RedirectPage ("/#log/" ++ params_slug)%string (title post)
                   (excerpt post) ("/#log/" ++ params_slug)%string
  end.

(** [sitemap()]. *)
Definition sitemap : list SitemapEntry :=
  let baseUrl := siteUrl in
  let posts := fst (getAllPosts cwd fs matter marked) in
  let postUrls :=
    map (fun post =>
           {| url := (baseUrl ++ "/log/" ++ slug post)%string;
              lastModified := Some (date post);
              changeFrequency := "monthly";
              priority := (8 # 10)%Q |}) posts in
  {| url := baseUrl; lastModified := None;
     changeFrequency := "weekly"; priority := 1%Q |} ::
  {| url := (baseUrl ++ "/log")%string; lastModified := None;
     changeFrequency := "weekly"; priority := (9 # 10)%Q |} ::
  postUrls.

End Pages.

End BlogPost.

(** ** Fixtures: a small content directory and post lists to run the
    definitions on *)
Module Fixtures.
Import JS.
Import Posts.
Import HomeClient.

Definition fm_empty : FrontMatter :=
  {| fm_slug := None; fm_title := None; fm_date := None;
     fm_readTime := None; fm_category := None; fm_tags := None;
     fm_excerpt := None |}.

Definition fm_day1 : FrontMatter :=
  {| fm_slug := Some "day-1-rust-ownership-borrowing-move";
     fm_title := Some "Day 1";
     fm_date := Some (DateObject "2026-01-25T00:00:00.000Z");
     fm_readTime := Some "6 min";
     fm_category := Some "rust";
     fm_tags := Some ["rust"; "beginner"];
     fm_excerpt := Some "one owner" |}.

Definition fm_day17 : FrontMatter :=
  {| fm_slug := Some "day-17-rust-hash-function";
     fm_title := Some "Day 17";
     fm_date := Some (DateObject "2026-02-10T00:00:00.000Z");
     fm_readTime := Some "10 min";
     fm_category := Some "rust";
     fm_tags := Some ["rust"; "hashing"];
     fm_excerpt := Some "sha-256" |}.

(** A front-matter whose category is none of the three labels. *)
Definition fm_golang : FrontMatter :=
  {| fm_slug := Some "go-notes";
     fm_title := Some "Go notes";
     fm_date := Some (DateString "2026-03-01");
     fm_readTime := None;
     fm_category := Some "golang";
     fm_tags := None;
     fm_excerpt := None |}.

(** A parser that knows four file texts and throws on any other. *)
Definition toy_matter (text : string) : result (FrontMatter * string) :=
  if String.eqb text "day1" then Ok (fm_day1, "# Day 1")
  else if String.eqb text "day17" then Ok (fm_day17, "# Day 17")
  else if String.eqb text "bare" then Ok (fm_empty, "hello")
  else if String.eqb text "golang" then Ok (fm_golang, "go")
  else Throw "YAMLException".

Definition toy_marked (body : string) : string := "<p>" ++ body ++ "</p>".

Definition toy_read (files : list (string * string)) (path : string)
  : result string :=
  match find (fun f => String.eqb ("/site/content/posts/" ++ fst f) path) files with
  | Some f => Ok (snd f)
  | None => Throw "ENOENT"
  end.

Definition toy_fs (files : list (string * string)) : FileSystem :=
  {| readdirSync := fun dir =>
       if String.eqb dir "/site/content/posts" then Ok (map fst files)
       else Throw "ENOENT";
     readFileSync := toy_read files |}.

Definition good_files : list (string * string) :=
  [("day-1.md", "day1"); ("notes.txt", "not a post");
   ("day-17.md", "day17"); ("untitled.md", "bare")].

Definition one_bad_file : list (string * string) :=
  [("day-1.md", "day1"); ("broken.md", "--- : ["); ("day-17.md", "day17")].

Definition golang_files : list (string * string) :=
  [("go.md", "golang")].

(** A directory that cannot be read. *)
Definition missing_fs : FileSystem :=
  {| readdirSync := fun _ => Throw "ENOENT";
     readFileSync := fun _ => Throw "ENOENT" |}.

Definition stub (s d c : string) : Post :=
  {| slug := s; title := s; date := d; readTime := "5 min";
     Posts.category := c; tags := []; excerpt := ""; content := "";
     html := "" |}.

(** Three posts, the newest first; the first and the third are [rust]. *)
Definition newest : Post := stub "c" "2026-02-20" "rust".
Definition middle : Post := stub "b" "2026-02-10" "personal".
Definition oldest : Post := stub "a" "2026-01-25" "rust".
Definition three_posts : list Post := [newest; middle; oldest].

Definition some_world : World :=
  {| route := log; category := all;
     location_hash := "#log"; history := ["#log"; "#home"] |}.

End Fixtures.

(** ** Facts about the primitives *)
Module JSFacts.
Import JS.

(** *** The order on strings *)

Lemma ascii_compare_refl (c : ascii) : Ascii.compare c c = Eq.
Proof. unfold Ascii.compare. apply N.compare_refl. Qed.

Lemma not_lt_trans (a b c : string) :
  String.compare a b <> Lt -> String.compare b c <> Lt ->
  String.compare a c <> Lt.
Proof.
  revert b c.
  induction a as [|x a IH]; intros [|y b] [|z c]; simpl; try congruence.
  unfold Ascii.compare.
  destruct (N.compare_spec (N_of_ascii x) (N_of_ascii y)) as [Exy|Lxy|Gxy];
    try congruence;
    destruct (N.compare_spec (N_of_ascii y) (N_of_ascii z)) as [Eyz|Lyz|Gyz];
    try congruence;
    destruct (N.compare_spec (N_of_ascii x) (N_of_ascii z)) as [Exz|Lxz|Gxz];
    try congruence; try lia.
  intros Hab Hbc. now apply (IH b c).
Qed.

Lemma string_compare_refl (a : string) : String.compare a a = Eq.
Proof.
  induction a as [|c a IH]; simpl; [reflexivity|].
  now rewrite ascii_compare_refl.
Qed.

Lemma str_ge_refl (a : string) : str_ge a a = true.
Proof.
  unfold str_ge, str_lt, String.ltb. now rewrite string_compare_refl.
Qed.

Lemma str_ge_trans (a b c : string) :
  str_ge a b = true -> str_ge b c = true -> str_ge a c = true.
Proof.
  unfold str_ge, str_lt, String.ltb. intros Hab Hbc.
  assert (H : String.compare a c <> Lt).
  { apply (not_lt_trans a b c).
    - destruct (String.compare a b); simpl in Hab; congruence.
    - destruct (String.compare b c); simpl in Hbc; congruence. }
  destruct (String.compare a c); simpl; congruence.
Qed.

(** When [a < b] holds, [b >= a] does. *)
Lemma str_lt_ge (a b : string) : str_lt a b = true -> str_ge b a = true.
Proof.
  unfold str_ge, str_lt, String.ltb. intros H.
  rewrite String.compare_antisym.
  destruct (String.compare a b); simpl in *; congruence.
Qed.

(** *** [split] *)

Lemma split_not_nil (sep : ascii) (s : string) : split sep s <> [].
Proof.
  destruct s as [|c t]; simpl; [discriminate|].
  destruct (Ascii.eqb c sep); [discriminate|].
  destruct (split sep t); discriminate.
Qed.

Lemma split_without_sep (sep : ascii) (s : string) :
  has sep s = false -> split sep s = [s].
Proof.
  induction s as [|c t IH]; simpl; [reflexivity|].
  intros H. apply orb_false_iff in H. destruct H as [Hc Ht].
  rewrite Hc, (IH Ht). reflexivity.
Qed.

Lemma split_app_sep (sep : ascii) (a b : string) :
  has sep a = false ->
  split sep (a ++ String sep b) = a :: split sep b.
Proof.
  induction a as [|c t IH]; simpl; intros H.
  - now rewrite Ascii.eqb_refl.
  - apply orb_false_iff in H. destruct H as [Hc Ht].
    rewrite Hc, (IH Ht). reflexivity.
Qed.

(** *** [endsWith] and the anchored [replace] *)

Lemma endsWith_app (a suffix : string) : endsWith (a ++ suffix) suffix = true.
Proof.
  induction a as [|c t IH].
  - simpl. destruct suffix; simpl; now rewrite ?String.eqb_refl, ?Ascii.eqb_refl.
  - change (String c t ++ suffix)%string with (String c (t ++ suffix)).
    cbn [endsWith]. rewrite IH.
    now destruct (String.eqb (String c (t ++ suffix)) suffix).
Qed.

Lemma replace_at_end_restores (s suffix : string) :
  endsWith s suffix = true -> (replace_at_end s suffix ++ suffix)%string = s.
Proof.
  induction s as [|c t IH].
  - destruct suffix; simpl; [reflexivity|discriminate].
  - cbn [endsWith replace_at_end].
    destruct (String.eqb_spec (String c t) suffix) as [<-|Hne].
    + reflexivity.
    + intros H. simpl. now rewrite (IH H).
Qed.

(** *** [findIndex] and indexing *)

Lemma findIndex_bounds {A : Type} (f : A -> bool) (l : list A) :
  (-1 <= findIndex f l < Z.of_nat (List.length l))%Z.
Proof.
  induction l as [|x t IH]; simpl; [lia|].
  destruct (f x); [lia|].
  destruct (Z.ltb_spec (findIndex f t) 0); lia.
Qed.

(** The first element satisfying [f] sits at the index [findIndex]
    returns. *)
Lemma findIndex_first {A : Type} (f : A -> bool) (l : list A) (i : nat) (x : A) :
  nth_error l i = Some x -> f x = true ->
  (forall j y, (j < i)%nat -> nth_error l j = Some y -> f y = false) ->
  findIndex f l = Z.of_nat i.
Proof.
  revert i. induction l as [|e t IH]; intros [|i] Hx Hf Hfirst; simpl in *;
    try discriminate.
  - injection Hx as ->. now rewrite Hf.
  - rewrite (Hfirst 0%nat e) by (simpl; auto; lia).
    rewrite (IH i Hx Hf).
    + destruct (Z.ltb_spec (Z.of_nat i) 0); lia.
    + intros j y Hj Hy. apply (Hfirst (S j) y); [lia|exact Hy].
Qed.

Lemma at_index_of_nat {A : Type} (l : list A) (i : nat) :
  at_index l (Z.of_nat i) = nth_error l i.
Proof.
  unfold at_index. destruct (Z.ltb_spec (Z.of_nat i) 0); [lia|].
  now rewrite Nat2Z.id.
Qed.

(** *** [sort] *)
Section SortFacts.
Context {A : Type}.
Variable cmp : A -> A -> Z.

Lemma insert_perm (x : A) (l : list A) : Permutation (insert cmp x l) (x :: l).
Proof.
  induction l as [|e t IH]; simpl; [reflexivity|].
  destruct (cmp x e <? 0)%Z; [reflexivity|].
  rewrite IH. apply perm_swap.
Qed.

Lemma fold_insert_perm (l acc : list A) :
  Permutation (fold_left (fun acc x => insert cmp x acc) l acc) (acc ++ l).
Proof.
  revert acc. induction l as [|x t IH]; intros acc; simpl.
  - now rewrite app_nil_r.
  - rewrite IH, insert_perm. apply Permutation_middle.
Qed.

Lemma sort_perm (l : list A) : Permutation (sort cmp l) l.
Proof. unfold sort. now rewrite fold_insert_perm. Qed.

(** An order [R] the comparator decides: a negative answer puts the first
    argument in front, any other answer the second. *)
Variable R : A -> A -> Prop.
Hypothesis cmp_neg : forall x e, (cmp x e <? 0)%Z = true -> R x e.
Hypothesis cmp_nonneg : forall x e, (cmp x e <? 0)%Z = false -> R e x.

Lemma insert_sorted (x : A) (l : list A) :
  Sorted R l -> Sorted R (insert cmp x l).
Proof.
  induction l as [|e t IH]; simpl; intros Hs.
  - repeat constructor.
  - destruct (cmp x e <? 0)%Z eqn:Hc.
    + constructor; [exact Hs|]. constructor. now apply cmp_neg.
    + inversion Hs as [|? ? Hst Hhd]; subst.
      constructor; [now apply IH|].
      destruct t as [|e' t']; simpl.
      * constructor. now apply cmp_nonneg.
      * destruct (cmp x e' <? 0)%Z.
        -- constructor. now apply cmp_nonneg.
        -- constructor. now inversion Hhd.
Qed.

Lemma fold_insert_sorted (l acc : list A) :
  Sorted R acc -> Sorted R (fold_left (fun acc x => insert cmp x acc) l acc).
Proof.
  revert acc. induction l as [|x t IH]; intros acc Hs; simpl; [exact Hs|].
  apply IH. now apply insert_sorted.
Qed.

Lemma sort_sorted (l : list A) : Sorted R (sort cmp l).
Proof. apply fold_insert_sorted. constructor. Qed.

End SortFacts.

(** Adjacent elements of a sorted list are related. *)
Lemma Sorted_adjacent {A : Type} (R : A -> A -> Prop) (l : list A) :
  Sorted R l ->
  forall i a b, nth_error l i = Some a -> nth_error l (S i) = Some b -> R a b.
Proof.
  induction 1 as [|x t Hs IH Hhd]; intros i a b Ha Hb.
  - destruct i; discriminate.
  - destruct i as [|i].
    + simpl in Ha, Hb. injection Ha as <-.
      destruct t as [|y t']; [discriminate|].
      simpl in Hb. injection Hb as <-. now inversion Hhd.
    + simpl in Ha. exact (IH i a b Ha Hb).
Qed.

Lemma filter_perm {A : Type} (f : A -> bool) (l l' : list A) :
  Permutation l l' -> Permutation (filter f l) (filter f l').
Proof.
  induction 1 as [|x l l' Hp IH|x y l|l l' l'' H1 IH1 H2 IH2]; simpl.
  - constructor.
  - destruct (f x); [now constructor|exact IH].
  - destruct (f x), (f y); try reflexivity. apply perm_swap.
  - now transitivity (filter f l').
Qed.

(** [find] returns the first element that satisfies the test. *)
Lemma find_first {A : Type} (f : A -> bool) (l : list A) (x : A) :
  find f l = Some x ->
  exists before after,
    l = before ++ x :: after /\ f x = true /\
    forall y, In y before -> f y = false.
Proof.
  induction l as [|e t IH]; simpl; [discriminate|].
  destruct (f e) eqn:He.
  - intros H. injection H as <-. exists [], t. repeat split; [exact He|].
    intros y [].
  - intros H. destruct (IH H) as (before & after & -> & Hx & Hb).
    exists (e :: before), after. repeat split; [exact Hx|].
    intros y [<-|Hy]; [exact He|now apply Hb].
Qed.

Lemma StronglySorted_filter {A : Type} (R : A -> A -> Prop) (f : A -> bool)
  (l : list A) : StronglySorted R l -> StronglySorted R (filter f l).
Proof.
  induction 1 as [|x t Hs IH Hall]; simpl; [constructor|].
  destruct (f x); [|exact IH].
  constructor; [exact IH|].
  rewrite Forall_forall in *. intros y Hy.
  apply filter_In in Hy. now apply Hall.
Qed.

End JSFacts.

(** ** The content loader *)
Module LoaderSpec.
Import JS.
Import Posts.
Import JSFacts.

(** *** The comparator and the order on dates *)

Lemma by_date_desc_neg (x e : Post) :
  (by_date_desc x e <? 0)%Z = true -> not_older x e.
Proof.
  unfold by_date_desc, not_older, str_ge.
  destruct (str_lt (date x) (date e)); [discriminate|reflexivity].
Qed.

Lemma by_date_desc_nonneg (x e : Post) :
  (by_date_desc x e <? 0)%Z = false -> not_older e x.
Proof.
  unfold by_date_desc, not_older.
  destruct (str_lt (date x) (date e)) eqn:Hlt; [|discriminate].
  intros _. now apply str_lt_ge.
Qed.

#[export] Instance not_older_trans : Transitive not_older.
Proof.
  intros a b c. unfold not_older. apply str_ge_trans.
Qed.

Lemma sort_by_date_sorted (l : list Post) :
  Sorted not_older (sort by_date_desc l).
Proof.
  apply sort_sorted; [apply by_date_desc_neg|apply by_date_desc_nonneg].
Qed.

Lemma sort_by_date_strongly_sorted (l : list Post) :
  StronglySorted not_older (sort by_date_desc l).
Proof.
  apply Sorted_StronglySorted; [exact not_older_trans|].
  apply sort_by_date_sorted.
Qed.

(** *** Calls that throw *)

Lemma map_throwing_stops {A B : Type} (f : A -> result B) (l : list A)
  (a : A) (e : exn) :
  In a l -> f a = Throw e -> exists e', map_throwing f l = Throw e'.
Proof.
  induction l as [|x t IH]; intros Hin Hf; [contradiction|].
  simpl. destruct Hin as [->|Hin].
  - rewrite Hf. simpl. now exists e.
  - destruct (f x) as [b|e0]; simpl; [|now exists e0].
    destruct (IH Hin Hf) as [e' ->]. simpl. now exists e'.
Qed.

Lemma map_throwing_Ok {A B : Type} (f : A -> result B) (l : list A)
  (bs : list B) :
  map_throwing f l = Ok bs -> Forall2 (fun a b => f a = Ok b) l bs.
Proof.
  revert bs. induction l as [|x t IH]; simpl; intros bs H.
  - injection H as <-. constructor.
  - destruct (f x) as [b|e] eqn:Hx; simpl in H; [|discriminate].
    destruct (map_throwing f t) as [bs'|e]; simpl in H; [|discriminate].
    injection H as <-. constructor; [exact Hx|now apply IH].
Qed.

Lemma Forall2_In_l {A B : Type} (P : A -> B -> Prop) (l : list A)
  (l' : list B) (a : A) :
  Forall2 P l l' -> In a l -> exists b, In b l' /\ P a b.
Proof.
  induction 1 as [|x y t t' Hxy Hall IH]; intros Hin; [contradiction|].
  destruct Hin as [->|Hin].
  - exists y. split; [now left|exact Hxy].
  - destruct (IH Hin) as [b [Hb Hab]]. exists b. split; [now right|exact Hab].
Qed.

Lemma Forall2_In_r {A B : Type} (P : A -> B -> Prop) (l : list A)
  (l' : list B) (b : B) :
  Forall2 P l l' -> In b l' -> exists a, In a l /\ P a b.
Proof.
  induction 1 as [|x y t t' Hxy Hall IH]; intros Hin; [contradiction|].
  destruct Hin as [->|Hin].
  - exists x. split; [now left|exact Hxy].
  - destruct (IH Hin) as [a [Ha Hab]]. exists a. split; [now right|exact Hab].
Qed.

Section LoaderFacts.
Variable cwd : string.
Variable fs : FileSystem.
Variable matter : string -> result (FrontMatter * string).
Variable marked : string -> string.

(** A load that wrote nothing to the console went through the [try] block. *)
Lemma getAllPosts_quiet (posts : list Post) :
  getAllPosts cwd fs matter marked = (posts, []) ->
  try_getAllPosts cwd fs matter marked = Ok posts.
Proof.
  unfold getAllPosts.
  destruct (try_getAllPosts cwd fs matter marked); intros H;
    [now injection H as ->|discriminate].
Qed.

Lemma try_getAllPosts_Ok (posts : list Post) :
  try_getAllPosts cwd fs matter marked = Ok posts ->
  exists fileNames loaded,
    readdirSync fs (postsDirectory cwd) = Ok fileNames /\
    Forall2 (fun fileName p => load_file cwd fs matter marked fileName = Ok p)
      (filter (fun fileName => endsWith fileName ".md") fileNames) loaded /\
    posts = sort by_date_desc loaded.
Proof.
  unfold try_getAllPosts.
  destruct (readdirSync fs (postsDirectory cwd)) as [fileNames|e]; simpl;
    [|discriminate].
  destruct (map_throwing (load_file cwd fs matter marked) _) as [loaded|e] eqn:Hm; simpl; [|discriminate].
  intros H. injection H as <-.
  exists fileNames, loaded. repeat split. now apply map_throwing_Ok.
Qed.

Lemma load_file_Ok (fileName : string) (p : Post) :
  load_file cwd fs matter marked fileName = Ok p ->
  exists text data body,
    readFileSync fs (path_join (postsDirectory cwd) fileName) = Ok text /\
    matter text = Ok (data, body) /\
    p = post_of fileName data body (marked body).
Proof.
  unfold load_file.
  destruct (readFileSync fs _) as [text|e]; simpl; [|discriminate].
  destruct (matter text) as [[data body]|e] eqn:Hm; simpl; [|discriminate].
  intros H. injection H as <-. now exists text, data, body.
Qed.

(** Every returned post was built from a file of the directory. *)
Lemma getAllPosts_In (p : Post) :
  In p (fst (getAllPosts cwd fs matter marked)) ->
  exists fileNames fileName text data body,
    readdirSync fs (postsDirectory cwd) = Ok fileNames /\
    In fileName fileNames /\ endsWith fileName ".md" = true /\
    readFileSync fs (path_join (postsDirectory cwd) fileName) = Ok text /\
    matter text = Ok (data, body) /\
    p = post_of fileName data body (marked body).
Proof.
  unfold getAllPosts.
  destruct (try_getAllPosts cwd fs matter marked) as [posts|e] eqn:Ht;
    simpl; [|contradiction].
  destruct (try_getAllPosts_Ok posts Ht) as (fileNames & loaded & Hd & Hl & ->).
  intros Hin.
  apply (Permutation_in _ (sort_perm by_date_desc loaded)) in Hin.
  destruct (Forall2_In_r _ _ _ _ Hl Hin) as (fileName & Hf & Hload).
  apply filter_In in Hf. destruct Hf as [Hf Hmd].
  destruct (load_file_Ok _ _ Hload) as (text & data & body & Hr & Hm & ->).
  now exists fileNames, fileName, text, data, body.
Qed.

(** C1. The posts [getAllPosts] returns are in non-increasing order of
    [date]: each post is followed by one whose date, compared as a string,
    is not greater. *)
Theorem getAllPosts_sorted_by_date (i : nat) (a b : Post) :
  nth_error (fst (getAllPosts cwd fs matter marked)) i = Some a ->
  nth_error (fst (getAllPosts cwd fs matter marked)) (S i) = Some b ->
  str_ge (date a) (date b) = true.
Proof.
  apply (Sorted_adjacent not_older).
  unfold getAllPosts.
  destruct (try_getAllPosts cwd fs matter marked) as [posts|e] eqn:Ht; simpl.
  - destruct (try_getAllPosts_Ok posts Ht) as (fileNames & loaded & _ & _ & ->).
    apply sort_by_date_sorted.
  - constructor.
Qed.

(** C6. When the content directory cannot be read, [getAllPosts] hands no
    error to its caller: it writes one line to the console and returns the
    empty list. *)
Theorem getAllPosts_unreadable_directory (error : exn) :
  readdirSync fs (postsDirectory cwd) = Throw error ->
  getAllPosts cwd fs matter marked = ([], [("Error reading posts:", error)]).
Proof.
  intros H. unfold getAllPosts, try_getAllPosts. now rewrite H.
Qed.

(** C10. No file is isolated from the others: when reading one markdown
    file of the directory throws, or parsing its front-matter does,
    [getAllPosts] returns the empty list, with one line on the console;
    the posts of the well-formed files are not returned. *)
Theorem getAllPosts_all_or_nothing (fileNames : list string)
  (fileName : string) (error : exn) :
  readdirSync fs (postsDirectory cwd) = Ok fileNames ->
  In fileName fileNames ->
  endsWith fileName ".md" = true ->
  (readFileSync fs (path_join (postsDirectory cwd) fileName) = Throw error \/
   exists text,
     readFileSync fs (path_join (postsDirectory cwd) fileName) = Ok text /\
     matter text = Throw error) ->
  exists thrown,
    getAllPosts cwd fs matter marked = ([], [("Error reading posts:", thrown)]).
Proof.
  intros Hdir Hin Hmd Hthrow.
  assert (Hload : load_file cwd fs matter marked fileName = Throw error).
  { unfold load_file. destruct Hthrow as [Hr|[text [Hr Hm]]]; rewrite Hr; simpl;
      [reflexivity|now rewrite Hm]. }
  assert (Hfilter : In fileName
            (filter (fun fileName => endsWith fileName ".md") fileNames)).
  { apply filter_In. now split. }
  destruct (map_throwing_stops _ _ _ _ Hfilter Hload) as [thrown Hm].
  exists thrown. unfold getAllPosts, try_getAllPosts.
  rewrite Hdir. simpl. now rewrite Hm.
Qed.

(** C5. A markdown file whose front-matter leaves out an optional key
    gives, in a load that went through, a post with the default in its
    place: [personal] for the category, the empty list for the tags,
    [5 min] for the reading time, and for the slug the file name without
    its [.md]. *)
Theorem getAllPosts_defaults (posts : list Post) (fileNames : list string)
  (fileName text body : string) (data : FrontMatter) :
  getAllPosts cwd fs matter marked = (posts, []) ->
  readdirSync fs (postsDirectory cwd) = Ok fileNames ->
  In fileName fileNames ->
  endsWith fileName ".md" = true ->
  readFileSync fs (path_join (postsDirectory cwd) fileName) = Ok text ->
  matter text = Ok (data, body) ->
  exists p,
    In p posts /\ p = post_of fileName data body (marked body) /\
    (fm_category data = None -> category p = "personal") /\
    (fm_tags data = None -> tags p = []) /\
    (fm_readTime data = None -> readTime p = "5 min") /\
    (fm_slug data = None -> (slug p ++ ".md")%string = fileName).
Proof.
  intros Hall Hdir Hin Hmd Hread Hmatter.
  apply getAllPosts_quiet in Hall.
  destruct (try_getAllPosts_Ok posts Hall) as (names & loaded & Hd & Hl & ->).
  rewrite Hdir in Hd. injection Hd as <-.
  assert (Hfilter : In fileName
            (filter (fun fileName => endsWith fileName ".md") fileNames)).
  { apply filter_In. now split. }
  destruct (Forall2_In_l _ _ _ _ Hl Hfilter) as (p & Hp & Hload).
  unfold load_file in Hload. rewrite Hread in Hload. simpl in Hload.
  rewrite Hmatter in Hload. simpl in Hload. injection Hload as <-.
  exists (post_of fileName data body (marked body)).
  split; [|split; [reflexivity|]].
  { apply (Permutation_in _ (Permutation_sym (sort_perm by_date_desc loaded))).
    exact Hp. }
  unfold post_of; simpl.
  repeat split; intros ->; try reflexivity.
  simpl. now apply replace_at_end_restores.
Qed.

(** C9, as the loader has it. A returned post that was built from a
    front-matter whose [category] is missing, the empty string or one of
    the three labels has a category that is one of the three labels:
    [personal] in the first two cases, the front-matter's label in the
    third. *)
Theorem getAllPosts_category (p : Post) :
  In p (fst (getAllPosts cwd fs matter marked)) ->
  exists fileName text data body,
    readFileSync fs (path_join (postsDirectory cwd) fileName) = Ok text /\
    matter text = Ok (data, body) /\
    p = post_of fileName data body (marked body) /\
    ((fm_category data = None \/ fm_category data = Some "") ->
     category p = "personal") /\
    (forall c, fm_category data = Some c -> In c category_labels ->
               category p = c) /\
    ((fm_category data = None \/ fm_category data = Some "" \/
      exists c, fm_category data = Some c /\ In c category_labels) ->
     In (category p) category_labels).
Proof.
  intros Hin.
  destruct (getAllPosts_In p Hin)
    as (fileNames & fileName & text & data & body & _ & _ & _ & Hr & Hm & ->).
  exists fileName, text, data, body.
  assert (Hlabel : forall c, fm_category data = Some c -> In c category_labels ->
                             category (post_of fileName data body (marked body)) = c).
  { intros c Hc Hl. simpl. rewrite Hc. simpl.
    destruct (String.eqb_spec c ""); [|reflexivity].
    subst c. simpl in Hl. destruct Hl as [H|[H|[H|[]]]]; discriminate H. }
  repeat split; try assumption.
  - simpl. intros [->| ->]; reflexivity.
  - intros [Hc|[Hc|[c [Hc Hl]]]].
    + simpl. rewrite Hc. simpl. auto.
    + simpl. rewrite Hc. simpl. auto.
    + rewrite (Hlabel c Hc Hl). exact Hl.
Qed.

End LoaderFacts.

End LoaderSpec.

(** ** The view-state router and the derived views *)
Module RouterSpec.
Import JS.
Import Posts.
Import HomeClient.
Import JSFacts.
Import LoaderSpec.

(** *** Parsing a fragment *)

Lemma parse_parts_post (s : string) :
  s <> "" -> has "/"%char s = false ->
  parse_parts ("log/" ++ s) = Some (post s).
Proof.
  intros Hne Hs. unfold parse_parts.
  change ("log/" ++ s)%string with ("log" ++ String "/"%char s)%string.
  rewrite split_app_sep by reflexivity.
  rewrite (split_without_sep _ _ Hs). simpl.
  destruct (String.eqb_spec s ""); [contradiction|reflexivity].
Qed.

Lemma parse_parts_name (r : Route) (name : string) :
  route_string r = Some name -> parse_parts name = Some r.
Proof.
  destruct r; simpl; intros H; try discriminate; injection H as <-;
    reflexivity.
Qed.

Lemma name_is_truthy (r : Route) (name : string) :
  route_string r = Some name -> truthy (Some name) = true.
Proof.
  destruct r; simpl; intros H; try discriminate; injection H as <-;
    reflexivity.
Qed.

(** A fragment whose first segment is no state name sets no route. *)
Lemma parse_parts_unrecognized (h : string) :
  includes state_names (nth 0 (split "/"%char h) EmptyString) = false ->
  parse_parts h = None.
Proof.
  unfold parse_parts. cbv zeta. intros Hn. rewrite Hn.
  destruct (String.eqb_spec (nth 0 (split "/"%char h) "") "log") as [E|_];
    [|reflexivity].
  rewrite E in Hn. discriminate.
Qed.

Lemma open_page_route (h : string) :
  route (open_page (String "#"%char h)) =
  if truthy (Some h) then
    match parse_parts h with Some r => r | None => home end
  else home.
Proof.
  unfold open_page, init_from_hash. cbn [location_hash slice1].
  destruct (truthy (Some h)); [|reflexivity].
  now destruct (parse_parts h).
Qed.

Lemma hashchange_route (h : string) (w : World) :
  route (hashchange_event (String "#"%char h) w) =
  if truthy (Some h) then
    match parse_parts h with Some r => r | None => route w end
  else home.
Proof.
  unfold hashchange_event, handleHashChange. cbn [location_hash slice1].
  destruct (truthy (Some h)); [|reflexivity].
  now destruct (parse_parts h).
Qed.

(** *** Writing a fragment *)

Lemma kept_not_stripped (c : ascii) :
  fragment_encoded c = false ->
  c0_or_space c = false /\ tab_or_newline c = false.
Proof.
  unfold fragment_encoded, c0_or_space, tab_or_newline. intros H.
  repeat (apply orb_false_iff in H; destruct H as [H ?]).
  split; [exact H|].
  apply N.leb_gt in H.
  repeat (apply orb_false_iff; split); apply N.eqb_neq; lia.
Qed.

Lemma kept_cons (c : ascii) (t : string) :
  kept_as_written (String c t) = true ->
  fragment_encoded c = false /\ kept_as_written t = true.
Proof.
  simpl. intros H. apply andb_true_iff in H. destruct H as [Hc Ht].
  split; [now apply negb_true_iff|exact Ht].
Qed.

Lemma strip_trailing_kept (s : string) :
  kept_as_written s = true -> strip_trailing s = s.
Proof.
  induction s as [|c t IH]; [reflexivity|]. intros H.
  apply kept_cons in H. destruct H as [Hc Ht].
  cbn [strip_trailing]. rewrite (IH Ht).
  rewrite (proj1 (kept_not_stripped c Hc)). now rewrite andb_false_r.
Qed.

Lemma remove_tab_newline_kept (s : string) :
  kept_as_written s = true -> remove_tab_newline s = s.
Proof.
  induction s as [|c t IH]; [reflexivity|]. intros H.
  apply kept_cons in H. destruct H as [Hc Ht].
  cbn [remove_tab_newline].
  now rewrite (proj2 (kept_not_stripped c Hc)), (IH Ht).
Qed.

Lemma encode_fragment_kept (s : string) :
  kept_as_written s = true -> encode_fragment s = s.
Proof.
  induction s as [|c t IH]; [reflexivity|]. intros H.
  apply kept_cons in H. destruct H as [Hc Ht].
  cbn [encode_fragment]. now rewrite Hc, (IH Ht).
Qed.

(** A fragment made of code units the parser keeps is read back from the
    address as it was written. *)
Lemma url_hash_kept (s : string) :
  kept_as_written s = true -> s <> EmptyString ->
  url_hash (String "#"%char s) = String "#"%char s.
Proof.
  intros Hk Hne. unfold url_hash.
  change (strip_leading (String "#"%char s)) with (String "#"%char s).
  assert (Hk' : kept_as_written (String "#"%char s) = true) by exact Hk.
  rewrite (strip_trailing_kept _ Hk'), (remove_tab_newline_kept _ Hk').
  cbn [after_hash Ascii.eqb Bool.eqb]. rewrite (encode_fragment_kept s Hk).
  destruct s; [contradiction|reflexivity].
Qed.

Lemma navigate_post (s : string) (w : World) :
  location_hash (navigate (post s) w) = url_hash ("#log/" ++ s).
Proof. reflexivity. Qed.

(** Setting a name that is not the state held runs the effect. *)
Lemma navigate_name (r : Route) (name : string) (w : World) :
  route_string r = Some name -> route w <> r ->
  location_hash (navigate r w) = ("#" ++ name)%string.
Proof.
  intros Hname Hne. unfold navigate.
  assert (Hs : same_state r (route w) = false).
  { unfold same_state. rewrite Hname.
    destruct (route w) as [| | | |s|];
      destruct r; simpl in Hname; try discriminate;
      injection Hname as <-; try reflexivity; now destruct Hne. }
  rewrite Hs.
  destruct r; simpl in Hname; try discriminate; injection Hname as <-;
    reflexivity.
Qed.

(** C2, as the router has it. For a slug that is not empty, has no [/]
    and is made of code units the browser keeps as written in a fragment,
    setting the route to [post s] writes the fragment [#log/s], and
    reading that fragment, on load or on a fragment change in any state,
    gives [post s] back; each parameterless state, set when it is not the
    state held, goes to its bare name and back the same way. *)
Theorem route_fragment_round_trip (s : string) (w w' : World) :
  s <> "" -> has "/"%char s = false -> kept_as_written s = true ->
  location_hash (navigate (post s) w) = ("#log/" ++ s)%string /\
  route (open_page (location_hash (navigate (post s) w))) = post s /\
  route (hashchange_event (location_hash (navigate (post s) w)) w') = post s /\
  forall r name, route_string r = Some name -> route w <> r ->
    location_hash (navigate r w) = ("#" ++ name)%string /\
    route (open_page (location_hash (navigate r w))) = r /\
    route (hashchange_event (location_hash (navigate r w)) w') = r.
Proof.
  intros Hne Hs Hk.
  assert (Ht : truthy (Some ("log/" ++ s)%string) = true) by reflexivity.
  assert (Hw : location_hash (navigate (post s) w) = ("#log/" ++ s)%string).
  { rewrite navigate_post.
    change ("#log/" ++ s)%string with (String "#"%char ("log/" ++ s)).
    apply url_hash_kept; [exact Hk|discriminate]. }
  rewrite Hw.
  change ("#log/" ++ s)%string with (String "#"%char ("log/" ++ s)).
  rewrite open_page_route, hashchange_route, Ht, (parse_parts_post s Hne Hs).
  do 3 (split; [reflexivity|]).
  intros r name Hname Hother. rewrite (navigate_name r name w Hname Hother).
  destruct r; simpl in Hname; try discriminate; injection Hname as <-;
    repeat split.
Qed.

(** C3, as the router has it. The empty fragment, and every fragment whose
    first segment is none of the five state names, leaves the page opened
    at it in the [home] state; delivered by a fragment change, the empty
    fragment gives [home] in any state, and such a fragment gives [home]
    when the state is [home] already. *)
Theorem unrecognized_fragment_home (h : string) (w : World) :
  includes state_names (nth 0 (split "/"%char h) EmptyString) = false ->
  route (open_page "") = home /\
  route (open_page (String "#"%char h)) = home /\
  route (hashchange_event "" w) = home /\
  (h = "" -> route (hashchange_event (String "#"%char h) w) = home) /\
  (route w = home -> route (hashchange_event (String "#"%char h) w) = home).
Proof.
  intros Hn.
  rewrite open_page_route, hashchange_route, (parse_parts_unrecognized h Hn).
  repeat split.
  - now destruct (truthy (Some h)).
  - now intros ->.
  - intros ->. now destruct (truthy (Some h)).
Qed.

(** *** The derived views *)

Lemma sorted_slugs_NoDup (posts : list Post) :
  NoDup (map slug posts) -> NoDup (map slug (sort by_date_desc posts)).
Proof.
  apply Permutation_NoDup, Permutation_map, Permutation_sym, sort_perm.
Qed.

(** With slugs that are unique, a post is found at its own index. *)
Lemma findIndex_slug (l : list Post) (i : nat) (p : Post) (s : string) :
  NoDup (map slug l) -> nth_error l i = Some p -> slug p = s ->
  findIndex (fun q => String.eqb (slug q) s) l = Z.of_nat i.
Proof.
  intros Hnd Hi <-. apply (findIndex_first _ l i p Hi).
  - apply String.eqb_refl.
  - intros j y Hj Hy. apply String.eqb_neq. intros Heq.
    assert (Hlen : (j < List.length (map slug l))%nat).
    { rewrite length_map. apply nth_error_Some. congruence. }
    assert (E : nth_error (map slug l) j = nth_error (map slug l) i).
    { rewrite !nth_error_map, Hy, Hi. simpl. now rewrite Heq. }
    pose proof (proj1 (NoDup_nth_error _) Hnd j i Hlen E). lia.
Qed.

Lemma currentPost_found (posts : list Post) (p : Post) :
  In p posts ->
  exists cur, currentPost posts (post (slug p)) = Some cur /\
              slug cur = slug p.
Proof.
  intros Hin. simpl.
  destruct (find (fun q => String.eqb (slug q) (slug p)) posts) as [cur|] eqn:Hf.
  - exists cur. split; [reflexivity|].
    apply find_some in Hf. now apply String.eqb_eq.
  - pose proof (find_none _ _ Hf p Hin) as Hp. simpl in Hp.
    now rewrite String.eqb_refl in Hp.
Qed.

(** C4, as the component has it. With unique slugs, the navigation of the
    post at index [i] of the date-descending list has as [prev] the post
    at [i + 1], which is not newer, and as [next] the post at [i - 1],
    which is not older; [prev] is absent at the oldest post, [next] at
    the newest. *)
Theorem postNavigation_neighbours (posts : list Post) (i : nat) (p : Post) :
  NoDup (map slug posts) ->
  nth_error (sort by_date_desc posts) i = Some p ->
  prev (postNavigation posts (currentPost posts (post (slug p)))) =
    nth_error (sort by_date_desc posts) (S i) /\
  next (postNavigation posts (currentPost posts (post (slug p)))) =
    match i with
    | O => None
    | S j => nth_error (sort by_date_desc posts) j
    end /\
  (forall older,
      prev (postNavigation posts (currentPost posts (post (slug p)))) = Some older ->
      str_ge (date p) (date older) = true) /\
  (forall newer,
      next (postNavigation posts (currentPost posts (post (slug p)))) = Some newer ->
      str_ge (date newer) (date p) = true).
Proof.
  intros Hnd Hi.
  assert (Hin : In p posts).
  { apply (Permutation_in _ (sort_perm by_date_desc posts)).
    now apply nth_error_In with i. }
  destruct (currentPost_found posts p Hin) as (cur & -> & Hslug).
  pose proof (sort_by_date_sorted posts) as Hsorted.
  assert (Hlt : (i < List.length (sort by_date_desc posts))%nat).
  { apply nth_error_Some. congruence. }
  assert (Hprev : prev (postNavigation posts (Some cur)) =
                  nth_error (sort by_date_desc posts) (S i)).
  { unfold postNavigation. cbn [prev]. rewrite Hslug.
    rewrite (findIndex_slug _ i p (slug p) (sorted_slugs_NoDup _ Hnd) Hi eq_refl).
    destruct (Z.ltb_spec (Z.of_nat i)
                (Z.of_nat (List.length (sort by_date_desc posts)) - 1)).
    - replace (Z.of_nat i + 1)%Z with (Z.of_nat (S i)) by lia.
      apply at_index_of_nat.
    - symmetry. apply nth_error_None. lia. }
  assert (Hnext : next (postNavigation posts (Some cur)) =
                  match i with
                  | O => None
                  | S j => nth_error (sort by_date_desc posts) j
                  end).
  { unfold postNavigation. cbn [next]. rewrite Hslug.
    rewrite (findIndex_slug _ i p (slug p) (sorted_slugs_NoDup _ Hnd) Hi eq_refl).
    destruct i as [|j]; [reflexivity|].
    destruct (Z.gtb_spec (Z.of_nat (S j)) 0); [|lia].
    replace (Z.of_nat (S j) - 1)%Z with (Z.of_nat j) by lia.
    apply at_index_of_nat. }
  rewrite Hprev, Hnext. repeat split.
  - intros older Ho. exact (Sorted_adjacent not_older _ Hsorted i p older Hi Ho).
  - intros newer Hn. destruct i as [|j]; [discriminate|].
    exact (Sorted_adjacent not_older _ Hsorted j newer p Hn Hi).
Qed.

(** C8. For every list of posts, the log list under a facet other than
    [all] holds exactly the posts whose category is the facet, and under
    [all] every post; in both cases in non-increasing order of date. *)
Theorem filteredPosts_exact_and_sorted (posts : list Post) (c : Facet) :
  Permutation (filteredPosts posts c)
    (match c with
     | all => posts
     | _ => filter (fun p => String.eqb (Posts.category p) (facet_label c)) posts
     end) /\
  (forall i a b,
      nth_error (filteredPosts posts c) i = Some a ->
      nth_error (filteredPosts posts c) (S i) = Some b ->
      str_ge (date a) (date b) = true).
Proof.
  split.
  - destruct c; unfold filteredPosts; simpl;
      try apply sort_perm; apply filter_perm, sort_perm.
  - apply (Sorted_adjacent not_older).
    apply StronglySorted_Sorted.
    destruct c; unfold filteredPosts; simpl;
      try apply StronglySorted_filter; apply sort_by_date_strongly_sorted.
Qed.

(** C7. [getPostBySlug] returns the first post of the load whose slug is
    the one asked for, and nothing when no post has it; and a route to a
    slug that no post of the list has selects no post and renders no post
    section. Every function involved is total, so nothing is thrown. *)
Theorem lookup_by_slug (cwd : string) (fs : FileSystem)
  (matter : string -> result (FrontMatter * string))
  (marked : string -> string) (posts : list Post) (s : string) :
  match fst (getPostBySlug cwd fs matter marked s) with
  | Some found =>
      exists before after,
        fst (getAllPosts cwd fs matter marked) = before ++ found :: after /\
        slug found = s /\
        forall q, In q before -> slug q <> s
  | None =>
      forall q, In q (fst (getAllPosts cwd fs matter marked)) -> slug q <> s
  end /\
  ((forall q, In q posts -> slug q <> s) ->
   currentPost posts (post s) = None /\
   render_post_section posts (post s) = None).
Proof.
  split.
  - unfold getPostBySlug.
    destruct (getAllPosts cwd fs matter marked) as [loaded out]. simpl.
    destruct (find (fun q => String.eqb (slug q) s) loaded) as [found|] eqn:Hf.
    + destruct (find_first _ _ _ Hf) as (before & after & -> & Hs & Hb).
      exists before, after. repeat split.
      * now apply String.eqb_eq.
      * intros q Hq. apply String.eqb_neq. now apply Hb.
    + intros q Hq. apply String.eqb_neq. exact (find_none _ _ Hf q Hq).
  - intros Hnone.
    assert (Hc : currentPost posts (post s) = None).
    { simpl. destruct (find (fun q => String.eqb (slug q) s) posts) as [q|] eqn:Hf;
        [|reflexivity].
      apply find_some in Hf. destruct Hf as [Hin Heq].
      apply String.eqb_eq in Heq. now destruct (Hnone q Hin). }
    split; [exact Hc|]. unfold render_post_section. now rewrite Hc.
Qed.

End RouterSpec.

(** ** The statements above on the fixtures, and the inputs on which the
    design document and the code part ways *)
Module Checks.
Import JS.
Import Posts.
Import HomeClient.
Import Fixtures.
Import LoaderSpec.
Import RouterSpec.

(** The three posts of [good_files], as loaded. *)
Lemma good_files_loaded :
  getAllPosts "/site" (toy_fs good_files) toy_matter toy_marked =
  ([post_of "day-17.md" fm_day17 "# Day 17" "<p># Day 17</p>";
    post_of "day-1.md" fm_day1 "# Day 1" "<p># Day 1</p>";
    post_of "untitled.md" fm_empty "hello" "<p>hello</p>"], []).
Proof. reflexivity. Qed.

Lemma getAllPosts_sorted_by_date_witness :
  nth_error (fst (getAllPosts "/site" (toy_fs good_files) toy_matter toy_marked)) 0
    = Some (post_of "day-17.md" fm_day17 "# Day 17" "<p># Day 17</p>") /\
  nth_error (fst (getAllPosts "/site" (toy_fs good_files) toy_matter toy_marked)) 1
    = Some (post_of "day-1.md" fm_day1 "# Day 1" "<p># Day 1</p>") /\
  str_ge "2026-02-10" "2026-01-25" = true.
Proof.
  split; [reflexivity|]. split; [reflexivity|].
  apply (getAllPosts_sorted_by_date "/site" (toy_fs good_files) toy_matter
           toy_marked 0
           (post_of "day-17.md" fm_day17 "# Day 17" "<p># Day 17</p>")
           (post_of "day-1.md" fm_day1 "# Day 1" "<p># Day 1</p>"));
    reflexivity.
Defined.

Lemma getAllPosts_unreadable_directory_witness :
  readdirSync missing_fs (postsDirectory "/site") = Throw "ENOENT" /\
  getAllPosts "/site" missing_fs toy_matter toy_marked =
    ([], [("Error reading posts:", "ENOENT")]).
Proof.
  split; [reflexivity|].
  apply getAllPosts_unreadable_directory. reflexivity.
Defined.

Lemma getAllPosts_all_or_nothing_witness :
  In "broken.md" (map fst one_bad_file) /\
  toy_matter "--- : [" = Throw "YAMLException" /\
  exists thrown,
    getAllPosts "/site" (toy_fs one_bad_file) toy_matter toy_marked =
      ([], [("Error reading posts:", thrown)]).
Proof.
  split; [simpl; auto|]. split; [reflexivity|].
  apply (getAllPosts_all_or_nothing "/site" (toy_fs one_bad_file) toy_matter
           toy_marked (map fst one_bad_file) "broken.md" "YAMLException").
  - reflexivity.
  - simpl; auto.
  - reflexivity.
  - right. exists "--- : [". split; reflexivity.
Defined.

Lemma getAllPosts_defaults_witness :
  exists p,
    In p (fst (getAllPosts "/site" (toy_fs good_files) toy_matter toy_marked)) /\
    Posts.category p = "personal" /\ tags p = [] /\
    readTime p = "5 min" /\ slug p = "untitled".
Proof.
  destruct (getAllPosts_defaults "/site" (toy_fs good_files) toy_matter
              toy_marked
              (fst (getAllPosts "/site" (toy_fs good_files) toy_matter toy_marked))
              (map fst good_files) "untitled.md" "bare" "hello" fm_empty)
    as (p & Hin & Hp & Hc & Ht & Hr & Hs).
  - reflexivity.
  - reflexivity.
  - simpl; auto.
  - reflexivity.
  - reflexivity.
  - reflexivity.
  - exists p. split; [exact Hin|].
    split; [now apply Hc|]. split; [now apply Ht|]. split; [now apply Hr|].
    rewrite Hp. reflexivity.
Defined.

Lemma getAllPosts_category_witness :
  In (post_of "untitled.md" fm_empty "hello" "<p>hello</p>")
     (fst (getAllPosts "/site" (toy_fs good_files) toy_matter toy_marked)) /\
  In (post_of "day-1.md" fm_day1 "# Day 1" "<p># Day 1</p>")
     (fst (getAllPosts "/site" (toy_fs good_files) toy_matter toy_marked)) /\
  (exists fileName text data body,
    readFileSync (toy_fs good_files)
      (path_join (postsDirectory "/site") fileName) = Ok text /\
    toy_matter text = Ok (data, body) /\
    post_of "untitled.md" fm_empty "hello" "<p>hello</p>" =
      post_of fileName data body (toy_marked body) /\
    ((fm_category data = None \/ fm_category data = Some "") ->
     "personal" = "personal") /\
    (forall c, fm_category data = Some c -> In c category_labels ->
               "personal" = c) /\
    ((fm_category data = None \/ fm_category data = Some "" \/
      exists c, fm_category data = Some c /\ In c category_labels) ->
     In "personal" category_labels)) /\
  (exists fileName text data body,
    readFileSync (toy_fs good_files)
      (path_join (postsDirectory "/site") fileName) = Ok text /\
    toy_matter text = Ok (data, body) /\
    post_of "day-1.md" fm_day1 "# Day 1" "<p># Day 1</p>" =
      post_of fileName data body (toy_marked body) /\
    ((fm_category data = None \/ fm_category data = Some "") ->
     "rust" = "personal") /\
    (forall c, fm_category data = Some c -> In c category_labels ->
               "rust" = c) /\
    ((fm_category data = None \/ fm_category data = Some "" \/
      exists c, fm_category data = Some c /\ In c category_labels) ->
     In "rust" category_labels)).
Proof.
  assert (H1 : In (post_of "untitled.md" fm_empty "hello" "<p>hello</p>")
                 (fst (getAllPosts "/site" (toy_fs good_files) toy_matter
                         toy_marked))) by (simpl; auto).
  assert (H2 : In (post_of "day-1.md" fm_day1 "# Day 1" "<p># Day 1</p>")
                 (fst (getAllPosts "/site" (toy_fs good_files) toy_matter
                         toy_marked))) by (simpl; auto).
  split; [exact H1|]. split; [exact H2|]. split.
  - exact (getAllPosts_category "/site" (toy_fs good_files) toy_matter
             toy_marked _ H1).
  - exact (getAllPosts_category "/site" (toy_fs good_files) toy_matter
             toy_marked _ H2).
Defined.

(** C9 as the design document has it fails: a front-matter with the
    category [golang] loads into a post whose category is none of the
    three labels. *)
Lemma category_outside_labels_counterexample :
  exists p,
    In p (fst (getAllPosts "/site" (toy_fs golang_files) toy_matter toy_marked)) /\
    ~ In (Posts.category p) category_labels.
Proof.
  exists (post_of "go.md" fm_golang "go" "<p>go</p>").
  split; [left; reflexivity|].
  simpl. intros [H|[H|[H|[]]]]; discriminate.
Qed.

Lemma route_fragment_round_trip_witness :
  "day-1-rust-ownership-borrowing-move" <> "" /\
  has "/"%char "day-1-rust-ownership-borrowing-move" = false /\
  kept_as_written "day-1-rust-ownership-borrowing-move" = true /\
  location_hash (navigate (post "day-1-rust-ownership-borrowing-move") some_world)
    = "#log/day-1-rust-ownership-borrowing-move" /\
  route (open_page "#log/day-1-rust-ownership-borrowing-move")
    = post "day-1-rust-ownership-borrowing-move" /\
  route (hashchange_event "#log/day-1-rust-ownership-borrowing-move" some_world)
    = post "day-1-rust-ownership-borrowing-move" /\
  route some_world <> skills /\
  location_hash (navigate skills some_world) = "#skills" /\
  route (open_page (location_hash (navigate skills some_world))) = skills.
Proof.
  split; [discriminate|]. split; [reflexivity|]. split; [reflexivity|].
  destruct (route_fragment_round_trip "day-1-rust-ownership-borrowing-move"
              some_world some_world) as (Hw & Ho & Hc & Hnames).
  - discriminate.
  - reflexivity.
  - reflexivity.
  - split; [exact Hw|]. split; [exact Ho|]. split; [exact Hc|].
    assert (Hother : route some_world <> skills) by discriminate.
    split; [exact Hother|].
    destruct (Hnames skills "skills" eq_refl Hother) as (Hs & Hso & _).
    split; [exact Hs|exact Hso].
Defined.

(** C2 as the design document has it fails. The slug [a/b] is written as
    [#log/a/b], which reads back as [post "a"]; the empty slug is written
    as [#log/], which reads back as [log]; the slug [a b] is written as
    [#log/a%20b], which reads back as [post "a%20b"]; and in the state
    [log] at the fragment [#bogus], setting the route to [log] writes
    nothing, so that the fragment read back gives [home]. *)
Lemma slug_round_trip_counterexample :
  location_hash (navigate (post "a/b") some_world) = "#log/a/b" /\
  route (open_page "#log/a/b") = post "a" /\
  route (open_page "#log/a/b") <> post "a/b" /\
  route (hashchange_event "#log/a/b" some_world) <> post "a/b" /\
  location_hash (navigate (post "") some_world) = "#log/" /\
  route (open_page "#log/") = log /\
  route (open_page "#log/") <> post "" /\
  location_hash (navigate (post "a b") some_world) = "#log/a%20b" /\
  route (open_page (location_hash (navigate (post "a b") some_world)))
    = post "a%20b" /\
  route (open_page (location_hash (navigate (post "a b") some_world)))
    <> post "a b" /\
  route (hashchange_event "#bogus" some_world) = log /\
  location_hash (navigate log (hashchange_event "#bogus" some_world))
    = "#bogus" /\
  route (open_page
           (location_hash (navigate log (hashchange_event "#bogus" some_world))))
    <> log.
Proof.
  repeat split; try reflexivity; discriminate.
Qed.

Lemma unrecognized_fragment_home_witness :
  includes state_names (nth 0 (split "/"%char "bogus") EmptyString) = false /\
  route (open_page "") = home /\
  route (open_page "#bogus") = home /\
  route (hashchange_event "" some_world) = home /\
  route (hashchange_event "#bogus" (setRoute home some_world)) = home.
Proof.
  split; [reflexivity|].
  destruct (unrecognized_fragment_home "bogus" (setRoute home some_world))
    as (H1 & H2 & _ & _ & H5); [reflexivity|].
  destruct (unrecognized_fragment_home "bogus" some_world)
    as (_ & _ & H3 & _); [reflexivity|].
  split; [exact H1|]. split; [exact H2|]. split; [exact H3|].
  apply H5. reflexivity.
Defined.

(** C3 as the design document has it fails. Delivered by a fragment
    change in the state [log], the fragment [#bogus], which is outside the
    grammar, leaves the state [log]; and the page opened at [#roadmap/x],
    also outside the grammar, is in the state [roadmap]. *)
Lemma unrecognized_fragment_counterexample :
  spec_fragment_grammar "bogus" = false /\
  route some_world = log /\
  route (hashchange_event "#bogus" some_world) = log /\
  route (hashchange_event "#bogus" some_world) <> home /\
  spec_fragment_grammar "roadmap/x" = false /\
  route (open_page "#roadmap/x") = roadmap /\
  route (open_page "#roadmap/x") <> home.
Proof.
  repeat split; try reflexivity; discriminate.
Qed.

Lemma three_posts_slugs_NoDup : NoDup (map slug three_posts).
Proof.
  repeat constructor; simpl; intuition discriminate.
Defined.

Lemma postNavigation_neighbours_witness :
  NoDup (map slug three_posts) /\
  nth_error (sort by_date_desc three_posts) 1 = Some middle /\
  prev (postNavigation three_posts (currentPost three_posts (post "b")))
    = Some oldest /\
  next (postNavigation three_posts (currentPost three_posts (post "b")))
    = Some newest /\
  str_ge (date middle) (date oldest) = true /\
  str_ge (date newest) (date middle) = true.
Proof.
  split; [exact three_posts_slugs_NoDup|]. split; [reflexivity|].
  destruct (postNavigation_neighbours three_posts 1 middle
              three_posts_slugs_NoDup eq_refl) as (Hp & Hn & Ho & Hnw).
  split; [exact Hp|]. split; [exact Hn|].
  split; [apply Ho; exact Hp|apply Hnw; exact Hn].
Defined.

(** C4 as the design document has it fails. From the middle post of
    [three_posts], [next] is the newer post, not the one at index 2, and
    [prev] is the older one, not the one at index 0; at the newest post it
    is [next] that is absent while [prev] is there, and at the oldest post
    the other way round. *)
Lemma next_is_newer_counterexample :
  sort by_date_desc three_posts = [newest; middle; oldest] /\
  next (postNavigation three_posts (currentPost three_posts (post "b")))
    <> nth_error (sort by_date_desc three_posts) 2 /\
  prev (postNavigation three_posts (currentPost three_posts (post "b")))
    <> nth_error (sort by_date_desc three_posts) 0 /\
  prev (postNavigation three_posts (currentPost three_posts (post "c")))
    <> None /\
  next (postNavigation three_posts (currentPost three_posts (post "a")))
    <> None.
Proof.
  repeat split; try reflexivity; discriminate.
Qed.

Lemma filteredPosts_exact_and_sorted_witness :
  Permutation (filteredPosts three_posts rust) [newest; oldest] /\
  filteredPosts three_posts rust = [newest; oldest] /\
  str_ge (date newest) (date oldest) = true.
Proof.
  split; [exact (proj1 (filteredPosts_exact_and_sorted three_posts rust))|].
  split; [reflexivity|].
  apply (proj2 (filteredPosts_exact_and_sorted three_posts rust) 0);
    reflexivity.
Defined.

Lemma lookup_by_slug_witness :
  (forall q, In q three_posts -> slug q <> "nonexistent-slug") /\
  fst (getPostBySlug "/site" (toy_fs good_files) toy_matter toy_marked
         "nonexistent-slug") = None /\
  currentPost three_posts (post "nonexistent-slug") = None /\
  render_post_section three_posts (post "nonexistent-slug") = None.
Proof.
  assert (Hnone : forall q, In q three_posts -> slug q <> "nonexistent-slug").
  { intros q [<-|[<-|[<-|[]]]]; discriminate. }
  split; [exact Hnone|]. split; [reflexivity|].
  exact (proj2 (lookup_by_slug "/site" (toy_fs good_files) toy_matter
                  toy_marked three_posts "nonexistent-slug") Hnone).
Defined.

End Checks.

(** ** [lib/utils.ts]: class names, the day counter, the clamp *)
Module UtilsSpec.
Import JS.
Import Utils.
Import JSFacts.

(** *** [cn] *)

Lemma split_parts_without_sep (sep : ascii) (s : string) :
  Forall (fun part => has sep part = false) (split sep s).
Proof.
  induction s as [|c t IH]; simpl.
  - repeat constructor.
  - destruct (Ascii.eqb c sep) eqn:Hc.
    + constructor; [reflexivity|exact IH].
    + destruct (split sep t) as [|p ps]; [repeat constructor; simpl; now rewrite Hc|].
      inversion IH as [|? ? Hp Hps]; subst.
      constructor; [simpl; now rewrite Hc|exact Hps].
Qed.

Lemma split_concat (sep : ascii) (l : list string) :
  l <> [] -> Forall (fun s => has sep s = false) l ->
  split sep (String.concat (String sep EmptyString) l) = l.
Proof.
  induction l as [|x t IH]; intros Hne Hall; [contradiction|].
  inversion Hall as [|? ? Hx Ht]; subst.
  destruct t as [|y t'].
  - simpl. now apply split_without_sep.
  - change (String.concat (String sep "") (x :: y :: t'))
      with (x ++ String sep (String.concat (String sep "") (y :: t')))%string.
    rewrite (split_app_sep _ _ _ Hx). f_equal.
    apply IH; [discriminate|exact Ht].
Qed.

Lemma filter_Boolean_nonempty (classes : list (option string)) :
  Forall (fun s => s <> EmptyString) (filter_Boolean classes).
Proof.
  induction classes as [|[s|] rest IH]; simpl; [constructor| |exact IH].
  destruct (String.eqb_spec s ""); simpl; [exact IH|].
  constructor; assumption.
Qed.

(** X1. When the arguments of [cn] that are kept hold no space and at
    least one is kept, the class list splits on spaces into exactly the
    kept arguments, in order: no two are glued and no token is empty. *)
Theorem cn_tokens (classes : list (option string)) :
  filter_Boolean classes <> [] ->
  Forall (fun s => has " "%char s = false) (filter_Boolean classes) ->
  split " "%char (cn classes) = filter_Boolean classes /\
  ~ In EmptyString (split " "%char (cn classes)).
Proof.
  intros Hne Hall. unfold cn.
  rewrite (split_concat " "%char _ Hne Hall). split; [reflexivity|].
  intros Hin.
  pose proof (filter_Boolean_nonempty classes) as Hnonempty.
  rewrite Forall_forall in Hnonempty. now apply (Hnonempty "" Hin).
Qed.

(** *** [daysBetween] *)

Lemma msPerDay_pos : (0 < msPerDay)%Z.
Proof. reflexivity. Qed.

Lemma Date_UTC_difference (a b : JSDate) :
  ((Date_UTC (getFullYear b) (getMonth b) (getDate b) -
    Date_UTC (getFullYear a) (getMonth a) (getDate a)) / msPerDay =
   Date_UTC (getFullYear b) (getMonth b) (getDate b) / msPerDay -
   Date_UTC (getFullYear a) (getMonth a) (getDate a) / msPerDay)%Z.
Proof.
  unfold Date_UTC. cbv zeta.
  rewrite <- Z.mul_sub_distr_r.
  rewrite !Z.div_mul by (pose proof msPerDay_pos; lia).
  reflexivity.
Qed.



(** X4. Counts add up: for three dates whose [Date.UTC] values are in
    order, the count from the first to the third is the two partial
    counts together, the middle day counted once. The order is that of
    [Date.UTC], which reads a year from 0 to 99 as 1900 later, not the
    order of the calendar. *)
Theorem daysBetween_additive (a b c : JSDate) :
  (Date_UTC (getFullYear a) (getMonth a) (getDate a) <=
   Date_UTC (getFullYear b) (getMonth b) (getDate b))%Z ->
  (Date_UTC (getFullYear b) (getMonth b) (getDate b) <=
   Date_UTC (getFullYear c) (getMonth c) (getDate c))%Z ->
  daysBetween a c = (daysBetween a b + daysBetween b c - 1)%Z.
Proof.
  unfold daysBetween. cbv zeta. rewrite !Date_UTC_difference.
  unfold Date_UTC. cbv zeta.
  rewrite !Z.div_mul by (pose proof msPerDay_pos; lia).
  pose proof msPerDay_pos as Hms. intros Hab Hbc. nia.
Qed.

(** The quotient by [k] moves by one exactly at the multiples of [k]. *)
Lemma div_succ (x k : Z) :
  (0 < k)%Z ->
  ((x + 1) / k = x / k + (if ((x + 1) mod k =? 0)%Z then 1 else 0))%Z.
Proof.
  intros Hk. destruct (Z.eqb_spec ((x + 1) mod k) 0);
    Z.div_mod_to_equations; nia.
Qed.

Lemma DayFromYear_step (y : Z) :
  (DayFromYear (y + 1) - DayFromYear y = DaysInYear y)%Z.
Proof.
  unfold DayFromYear, DaysInYear.
  replace (y + 1 - 1969)%Z with (y - 1969 + 1)%Z by lia.
  replace (y + 1 - 1901)%Z with (y - 1901 + 1)%Z by lia.
  replace (y + 1 - 1601)%Z with (y - 1601 + 1)%Z by lia.
  rewrite !div_succ by lia.
  assert (E4 : ((y - 1969 + 1) mod 4 = y mod 4)%Z).
  { replace (y - 1969 + 1)%Z with (y + (-492) * 4)%Z by lia.
    apply Z.mod_add. lia. }
  assert (E100 : ((y - 1901 + 1) mod 100 = y mod 100)%Z).
  { replace (y - 1901 + 1)%Z with (y + (-19) * 100)%Z by lia.
    apply Z.mod_add. lia. }
  assert (E400 : ((y - 1601 + 1) mod 400 = y mod 400)%Z).
  { replace (y - 1601 + 1)%Z with (y + (-4) * 400)%Z by lia.
    apply Z.mod_add. lia. }
  rewrite E4, E100, E400.
  assert (H100 : (y mod 100 = 0 -> y mod 4 = 0)%Z).
  { intros H. Z.div_mod_to_equations. lia. }
  assert (H400 : (y mod 400 = 0 -> y mod 100 = 0)%Z).
  { intros H. Z.div_mod_to_equations. lia. }
  destruct (Z.eqb_spec (y mod 4) 0), (Z.eqb_spec (y mod 100) 0),
    (Z.eqb_spec (y mod 400) 0); cbn [negb]; lia.
Qed.

(** X5. From a day of the year [y] to the same day and month of the next
    year the count is the length of the year that holds the 29 February in
    between, if any, plus one; this for years from 100 on, which
    [Date.UTC] takes as they are. *)
Theorem daysBetween_one_year_later (y m d : Z) :
  (100 <= y)%Z -> (0 <= m <= 11)%Z ->
  daysBetween (mkJSDate y m d) (mkJSDate (y + 1) m d) =
  ((if (m <=? 1)%Z then DaysInYear y else DaysInYear (y + 1)) + 1)%Z.
Proof.
  intros Hy Hm.
  unfold daysBetween. cbv zeta. rewrite Date_UTC_difference.
  unfold Date_UTC. cbv zeta. cbn [getFullYear getMonth getDate].
  replace ((0 <=? y) && (y <=? 99))%Z with false by
    (symmetry; apply andb_false_iff; right; apply Z.leb_gt; lia).
  replace ((0 <=? y + 1) && (y + 1 <=? 99))%Z with false by
    (symmetry; apply andb_false_iff; right; apply Z.leb_gt; lia).
  rewrite !Z.div_mul by (pose proof msPerDay_pos; lia).
  unfold MakeDay. cbv zeta.
  replace (m / 12)%Z with 0%Z by (symmetry; apply Z.div_small; lia).
  replace (m mod 12)%Z with m by (symmetry; apply Z.mod_small; lia).
  rewrite !Z.add_0_r.
  pose proof (DayFromYear_step y) as Hstep.
  assert (Hleap : forall z, InLeapYear z = (DaysInYear z - 365)%Z).
  { intros z. unfold InLeapYear, DaysInYear.
    destruct (negb (z mod 4 =? 0)%Z); [reflexivity|].
    destruct (negb (z mod 100 =? 0)%Z); [reflexivity|].
    destruct (negb (z mod 400 =? 0)%Z); reflexivity. }
  assert (Hdiy : forall z, (DaysInYear z = 365 \/ DaysInYear z = 366)%Z).
  { intros z. unfold DaysInYear.
    destruct (negb (z mod 4 =? 0)%Z); [now left|].
    destruct (negb (z mod 100 =? 0)%Z); [now right|].
    destruct (negb (z mod 400 =? 0)%Z); [now left|now right]. }
  rewrite !Hleap.
  destruct (Hdiy y), (Hdiy (y + 1)%Z).
  all: unfold month_start.
  all: destruct (Z.leb_spec m 1);
    repeat match goal with
    | |- context [(?x =? ?k)%Z] => destruct (Z.eqb_spec x k)
    end; lia.
Qed.

(** *** [clamp] *)

(** X6. With bounds in order, [clamp] returns a number between them, and
    the number itself when it already lies between them. *)
Theorem clamp_within (n lo hi : Q) :
  (lo <= hi)%Q ->
  (lo <= clamp n lo hi)%Q /\ (clamp n lo hi <= hi)%Q /\
  ((lo <= n)%Q -> (n <= hi)%Q -> (clamp n lo hi == n)%Q).
Proof.
  intros Hb. unfold clamp. repeat split.
  - apply Q.min_glb; [exact Hb|apply Q.le_max_l].
  - apply Q.le_min_l.
  - intros Hlo Hhi.
    rewrite (Q.max_r lo n Hlo). now apply Q.min_r.
Qed.



End UtilsSpec.

(** ** More on the router: what a fragment can and cannot do *)
Module RouterMore.
Import JS.
Import Posts.
Import HomeClient.
Import JSFacts.
Import RouterSpec.
Import UtilsSpec.

Lemma nth_error_nth_default (parts : list string) (n : nat) (s : string) :
  nth_error parts n = Some s -> nth n parts EmptyString = s.
Proof.
  revert n. induction parts as [|p ps IH]; intros [|n]; simpl; try discriminate.
  - now intros [= ->].
  - apply IH.
Qed.

(** The only routes a fragment can set. *)
Lemma parse_parts_Some (h : string) (r : Route) :
  parse_parts h = Some r ->
  (exists s, r = post s /\ s <> EmptyString /\ has "/"%char s = false) \/
  (exists name, route_string r = Some name).
Proof.
  unfold parse_parts. cbv zeta.
  destruct (String.eqb (nth 0 (split "/"%char h) "") "log" &&
            truthy (nth_error (split "/"%char h) 1)) eqn:Hlog.
  - intros [= <-]. left. exists (nth 1 (split "/"%char h) "").
    apply andb_true_iff in Hlog. destruct Hlog as [_ Ht].
    destruct (nth_error (split "/"%char h) 1) as [s|] eqn:Hs; [|discriminate].
    rewrite (nth_error_nth_default _ _ _ Hs).
    repeat split.
    + simpl in Ht. now destruct (String.eqb_spec s "").
    + pose proof (split_parts_without_sep "/"%char h) as Hall.
      rewrite Forall_forall in Hall. apply Hall.
      now apply nth_error_In with 1%nat.
  - destruct (includes state_names (nth 0 (split "/"%char h) "")); [|discriminate].
    unfold route_of_name.
    repeat match goal with
    | |- context [String.eqb ?a ?b] => destruct (String.eqb a b)
    end; intros [= <-]; right; eexists; reflexivity.
Qed.

(** X9. No fragment can bring the router to a post with an empty slug or
    with a [/] in its slug: the page opened at any address is never in
    such a state, and after a fragment change the router is in such a
    state only if it was in it before. *)
Theorem fragment_never_sets_bad_slug (h s : string) (w : World) :
  (route (open_page h) = post s ->
   s <> EmptyString /\ has "/"%char s = false) /\
  (route (hashchange_event h w) = post s ->
   (s <> EmptyString /\ has "/"%char s = false) \/ route w = post s).
Proof.
  split.
  - unfold open_page, init_from_hash. cbn [location_hash].
    destruct (truthy (Some (slice1 h))); [|discriminate].
    destruct (parse_parts (slice1 h)) as [r|] eqn:Hp; [|discriminate].
    cbn [setRoute route]. intros ->.
    destruct (parse_parts_Some _ _ Hp) as [(s' & [= <-] & Hs)|[name Hn]];
      [exact Hs|discriminate].
  - unfold hashchange_event, handleHashChange. cbn [location_hash].
    destruct (truthy (Some (slice1 h))); cbn [negb]; [|discriminate].
    destruct (parse_parts (slice1 h)) as [r|] eqn:Hp.
    + cbn [setRoute route]. intros ->. left.
      destruct (parse_parts_Some _ _ Hp) as [(s' & [= <-] & Hs)|[name Hn]];
        [exact Hs|discriminate].
    + cbn [route]. intros ->. now right.
Qed.

Lemma parse_parts_two_segments (h p0 p1 : string) (rest : list string) :
  split "/"%char h = p0 :: p1 :: rest ->
  parse_parts h = parse_parts (p0 ++ String "/"%char p1).
Proof.
  intros Hs.
  pose proof (split_parts_without_sep "/"%char h) as Hall.
  rewrite Hs in Hall.
  inversion Hall as [|? ? H0 Hall']; subst.
  inversion Hall' as [|? ? H1 _]; subst.
  unfold parse_parts.
  rewrite Hs, (split_app_sep _ _ _ H0), (split_without_sep _ _ H1).
  reflexivity.
Qed.

(** X10. Only the first two segments of a fragment are read: whatever
    follows a second [/] changes neither the state the page opens in nor
    the state a fragment change leads to. *)
Theorem later_segments_ignored (h p0 p1 : string) (rest : list string)
  (w : World) :
  split "/"%char h = p0 :: p1 :: rest ->
  route (open_page (String "#"%char h)) =
    route (open_page (String "#"%char (p0 ++ String "/"%char p1))) /\
  route (hashchange_event (String "#"%char h) w) =
    route (hashchange_event (String "#"%char (p0 ++ String "/"%char p1)) w).
Proof.
  intros Hs.
  rewrite !open_page_route, !hashchange_route.
  rewrite <- (parse_parts_two_segments h p0 p1 rest Hs).
  assert (Hh : truthy (Some h) = true).
  { destruct h; [discriminate Hs|reflexivity]. }
  assert (Hp : truthy (Some (p0 ++ String "/"%char p1)%string) = true).
  { destruct p0; reflexivity. }
  now rewrite Hh, Hp.
Qed.

Lemma sync_hash_post (s : string) (w : World) :
  route w = post s -> kept_as_written s = true ->
  location_hash (sync_hash w) = ("#log/" ++ s)%string.
Proof.
  intros Hr Hk. unfold sync_hash. rewrite Hr.
  cbn [route_string pushState location_hash].
  change ("#log/" ++ s)%string with (String "#"%char ("log/" ++ s)).
  apply url_hash_kept; [exact Hk|discriminate].
Qed.

(** X11. The fragment written for a route tells the route, as long as
    the slug of a post route is made of code units the browser keeps as
    written: two such states for which the effect writes the same
    fragment are the same state, the slug included. *)
Theorem written_fragment_injective (w w' : World) :
  (forall s, route w = post s -> kept_as_written s = true) ->
  (forall s, route w' = post s -> kept_as_written s = true) ->
  location_hash (sync_hash w) = location_hash (sync_hash w') ->
  route w = route w'.
Proof.
  intros Hk Hk'.
  destruct (route w) as [| | | |s|] eqn:Hr;
    destruct (route w') as [| | | |s'|] eqn:Hr';
    try rewrite (sync_hash_post s w Hr (Hk s eq_refl));
    try rewrite (sync_hash_post s' w' Hr' (Hk' s' eq_refl));
    try (unfold sync_hash; rewrite ?Hr, ?Hr';
         cbn [route_string pushState location_hash]);
    intros H; try reflexivity; try discriminate H.
  injection H as H. now subst.
Qed.

(** X12. The two copies of the parser agree where they can: a fragment
    change delivered in the [home] state leads to the state the page
    would open in at that fragment. *)
Theorem hashchange_from_home_as_open (h : string) (w : World) :
  route w = home ->
  route (hashchange_event h w) = route (open_page h).
Proof.
  intros Hw.
  unfold hashchange_event, handleHashChange, open_page, init_from_hash.
  cbn [location_hash].
  destruct (truthy (Some (slice1 h))); cbn [negb]; [|reflexivity].
  destruct (parse_parts (slice1 h)); [reflexivity|].
  cbn [route]. exact Hw.
Qed.

End RouterMore.

(** ** The navigation bar, the page body and the derived lists *)
Module ViewsSpec.
Import JS.
Import Posts.
Import HomeClient.
Import Components.
Import JSFacts.
Import LoaderSpec.
Import RouterSpec.

(** X13. The navigation bar highlights at most one of its four links, and
    none exactly when the route is [manifesto] or a post: while a post is
    read, not even the log link is highlighted. *)
Theorem nav_highlights_at_most_one (r : Route) :
  (List.length (filter (active r) nav_keys) <= 1)%nat /\
  (filter (active r) nav_keys = [] <->
   r = manifesto \/ exists s, r = post s).
Proof.
  destruct r as [| | | |s|]; cbn; split; try lia; split;
    try discriminate; try (intros [H|[s' H]]; discriminate H);
    try reflexivity.
  - intros _. right. now exists s.
  - intros _. now left.
Qed.

Lemma route_is_post (s name : string) : route_is (post s) name = false.
Proof. reflexivity. Qed.

(** X14. The page body holds at most one block, and it is empty exactly
    when the route is a post whose slug no post of the list has: an
    unknown slug leaves the page blank between the navigation bar and the
    footer, every other route shows its block. *)
Theorem render_main_one_block (posts : list Post) (r : Route) (c : Facet) :
  (List.length (render_main posts r c) <= 1)%nat /\
  (render_main posts r c = [] <->
   exists s, r = post s /\ forall q, In q posts -> slug q <> s).
Proof.
  destruct r as [| | | |s|];
    try (split; [cbn; lia|]; split; [cbn; discriminate|];
         intros (s' & H & _); discriminate H).
  unfold render_main, render_post_section.
  cbn [route_is route_string when app currentPost].
  destruct (find (fun p => String.eqb (slug p) s) posts) as [cur|] eqn:Hf.
  - split; [cbn; lia|]. split; [discriminate|].
    intros (s' & [= <-] & Hnone).
    apply find_some in Hf. destruct Hf as [Hin Heq].
    apply String.eqb_eq in Heq. now destruct (Hnone cur Hin).
  - split; [cbn; lia|]. split; [|reflexivity].
    intros _. exists s. split; [reflexivity|].
    intros q Hq. apply String.eqb_neq. exact (find_none _ _ Hf q Hq).
Qed.

Lemma filteredPosts_strongly_sorted (posts : list Post) (c : Facet) :
  StronglySorted not_older (filteredPosts posts c).
Proof.
  destruct c; unfold filteredPosts; simpl;
    try apply StronglySorted_filter; apply sort_by_date_strongly_sorted.
Qed.

Lemma StronglySorted_app_inv {A : Type} (R : A -> A -> Prop) (l1 l2 : list A) :
  StronglySorted R (l1 ++ l2) ->
  forall a b, In a l1 -> In b l2 -> R a b.
Proof.
  induction l1 as [|x t IH]; simpl; intros Hs a b Ha Hb; [contradiction|].
  inversion Hs as [|? ? Hst Hall]; subst.
  destruct Ha as [<-|Ha].
  - rewrite Forall_forall in Hall. apply Hall, in_or_app. now right.
  - now apply IH.
Qed.

(** X15. The log list of the home view shows at most three posts, the
    first ones of the filtered list, and none of the posts it leaves out
    is newer than one it shows. *)
Theorem home_preview_newest (posts : list Post) (c : Facet) :
  (List.length (home_preview posts c) <= 3)%nat /\
  filteredPosts posts c =
    home_preview posts c ++ skipn 3 (filteredPosts posts c) /\
  (forall shown hidden,
      In shown (home_preview posts c) ->
      In hidden (skipn 3 (filteredPosts posts c)) ->
      str_ge (date shown) (date hidden) = true).
Proof.
  unfold home_preview. split; [apply firstn_le_length|].
  split; [symmetry; apply firstn_skipn|].
  apply (StronglySorted_app_inv not_older).
  rewrite firstn_skipn. apply filteredPosts_strongly_sorted.
Qed.

Lemma filteredPosts_In (posts : list Post) (c : Facet) (p : Post) :
  In p (filteredPosts posts c) -> In p posts.
Proof.
  intros Hin.
  apply (Permutation_in _ (sort_perm by_date_desc posts)).
  destruct c; unfold filteredPosts in Hin; simpl in Hin;
    try exact Hin; now apply filter_In in Hin.
Qed.

(** A slug that is unique in the list is the slug of one post only. *)
Lemma unique_slug (posts : list Post) (p q : Post) :
  NoDup (map slug posts) -> In p posts -> In q posts ->
  slug p = slug q -> p = q.
Proof.
  induction posts as [|x t IH]; simpl; intros Hnd Hp Hq Heq; [contradiction|].
  inversion Hnd as [|? ? Hx Ht]; subst.
  destruct Hp as [<-|Hp], Hq as [<-|Hq].
  - reflexivity.
  - destruct Hx. rewrite Heq. now apply in_map.
  - destruct Hx. rewrite <- Heq. now apply in_map.
  - now apply IH.
Qed.

(** X16. Opening a post from a log list never gives a blank page: for
    every post the list shows, under any facet, the route its card sets
    selects a post with that slug and the post section is rendered; with
    unique slugs the post selected is the one that was clicked. *)
Theorem listed_post_opens (posts : list Post) (c : Facet) (p : Post)
  (w : World) :
  In p (filteredPosts posts c) ->
  exists cur section,
    currentPost posts (route (onOpen (slug p) w)) = Some cur /\
    slug cur = slug p /\
    render_post_section posts (route (onOpen (slug p) w)) = Some section /\
    shown_title section = title cur /\ shown_html section = html cur /\
    (NoDup (map slug posts) -> cur = p).
Proof.
  intros Hin. apply filteredPosts_In in Hin.
  destruct (currentPost_found posts p Hin) as (cur & Hc & Hs).
  cbn [onOpen setRoute route]. unfold render_post_section. rewrite Hc.
  eexists cur, _. repeat split; try reflexivity; try exact Hs.
  intros Hnd. apply (unique_slug posts cur p Hnd); [|exact Hin|exact Hs].
  simpl in Hc. now apply find_some in Hc.
Qed.

Lemma at_index_In {A : Type} (l : list A) (i : Z) (x : A) :
  at_index l i = Some x -> In x l.
Proof.
  unfold at_index. destruct (i <? 0)%Z; [discriminate|].
  apply nth_error_In.
Qed.

Lemma postNavigation_In (posts : list Post) (current : option Post) (q : Post) :
  prev (postNavigation posts current) = Some q \/
  next (postNavigation posts current) = Some q ->
  In q posts.
Proof.
  intros H. apply (Permutation_in _ (sort_perm by_date_desc posts)).
  destruct current as [cur|]; [|destruct H; discriminate].
  unfold postNavigation in H. cbn [prev next] in H.
  destruct H as [H|H].
  - destruct (_ <? _)%Z; [now apply at_index_In in H|discriminate].
  - destruct (_ >? _)%Z; [now apply at_index_In in H|discriminate].
Qed.

(** X17. The pagination buttons never lead to a blank page: the slug a
    rendered PREVIOUS or NEXT button opens is the slug of a post of the
    list, so the route it sets selects a post. *)
Theorem pagination_targets_exist (posts : list Post) (r : Route)
  (section : PostSection) (s : string) :
  render_post_section posts r = Some section ->
  previous_button section = Some s \/ next_button section = Some s ->
  exists cur, currentPost posts (post s) = Some cur /\ slug cur = s.
Proof.
  unfold render_post_section.
  destruct (currentPost posts r) as [cur|]; [|discriminate].
  cbv zeta.
  remember (postNavigation posts (Some cur)) as nav eqn:Hnav.
  intros [= <-]. cbn [previous_button next_button].
  intros H.
  assert (Hq : exists q, In q posts /\ slug q = s).
  { destruct H as [H|H].
    - destruct (prev nav) as [q|] eqn:Hq; cbn [option_map] in H;
        [|discriminate].
      injection H as <-. exists q. split; [|reflexivity].
      apply (postNavigation_In posts (Some cur)). left. now rewrite <- Hnav.
    - destruct (next nav) as [q|] eqn:Hq; cbn [option_map] in H;
        [|discriminate].
      injection H as <-. exists q. split; [|reflexivity].
      apply (postNavigation_In posts (Some cur)). right. now rewrite <- Hnav. }
  destruct Hq as (q & Hin & <-). exact (currentPost_found posts q Hin).
Qed.

(** The navigation of the post at index [i], by index. *)
Lemma postNavigation_at (posts : list Post) (i : nat) (p : Post) :
  NoDup (map slug posts) ->
  nth_error (sort by_date_desc posts) i = Some p ->
  prev (postNavigation posts (currentPost posts (post (slug p)))) =
    nth_error (sort by_date_desc posts) (S i) /\
  next (postNavigation posts (currentPost posts (post (slug p)))) =
    match i with
    | O => None
    | S j => nth_error (sort by_date_desc posts) j
    end.
Proof.
  intros Hnd Hi.
  assert (Hin : In p posts).
  { apply (Permutation_in _ (sort_perm by_date_desc posts)).
    now apply nth_error_In with i. }
  destruct (currentPost_found posts p Hin) as (cur & -> & Hslug).
  unfold postNavigation. cbn [prev next]. rewrite Hslug.
  rewrite (findIndex_slug _ i p (slug p) (sorted_slugs_NoDup _ Hnd) Hi eq_refl).
  assert (Hlt : (i < List.length (sort by_date_desc posts))%nat).
  { apply nth_error_Some. congruence. }
  split.
  - destruct (Z.ltb_spec (Z.of_nat i)
                (Z.of_nat (List.length (sort by_date_desc posts)) - 1)).
    + replace (Z.of_nat i + 1)%Z with (Z.of_nat (S i)) by lia.
      apply at_index_of_nat.
    + symmetry. apply nth_error_None. lia.
  - destruct i as [|j]; [reflexivity|].
    destruct (Z.gtb_spec (Z.of_nat (S j)) 0); [|lia].
    replace (Z.of_nat (S j) - 1)%Z with (Z.of_nat j) by lia.
    apply at_index_of_nat.
Qed.

(** X18. With unique slugs the two pagination buttons undo each other:
    if PREVIOUS on the post [p] leads to [q], then NEXT on [q] leads back
    to [p], and the other way round; and neither button of a post leads
    to the post itself. *)
Theorem previous_and_next_are_inverse (posts : list Post) (p q : Post) :
  NoDup (map slug posts) -> In p posts ->
  (prev (postNavigation posts (currentPost posts (post (slug p)))) = Some q ->
   next (postNavigation posts (currentPost posts (post (slug q)))) = Some p) /\
  (next (postNavigation posts (currentPost posts (post (slug p)))) = Some q ->
   prev (postNavigation posts (currentPost posts (post (slug q)))) = Some p) /\
  prev (postNavigation posts (currentPost posts (post (slug p)))) <> Some p /\
  next (postNavigation posts (currentPost posts (post (slug p)))) <> Some p.
Proof.
  intros Hnd Hin.
  apply (Permutation_in _ (Permutation_sym (sort_perm by_date_desc posts))) in Hin.
  destruct (In_nth_error _ _ Hin) as [i Hi].
  destruct (postNavigation_at posts i p Hnd Hi) as [Hprev Hnext].
  rewrite Hprev, Hnext.
  assert (Hsorted_nd : NoDup (sort by_date_desc posts)).
  { apply (Permutation_NoDup (Permutation_sym (sort_perm by_date_desc posts))).
    now apply NoDup_map_inv with (f := slug). }
  assert (Hlt : (i < List.length (sort by_date_desc posts))%nat).
  { apply nth_error_Some. congruence. }
  repeat split.
  - intros Hq. now rewrite (proj2 (postNavigation_at posts (S i) q Hnd Hq)).
  - destruct i as [|j]; [discriminate|]. intros Hq.
    now rewrite (proj1 (postNavigation_at posts j q Hnd Hq)).
  - intros Hq. rewrite <- Hi in Hq.
    pose proof (proj1 (NoDup_nth_error _) Hsorted_nd i (S i) Hlt
                  (eq_sym Hq)). lia.
  - destruct i as [|j]; [discriminate|]. intros Hq. rewrite <- Hi in Hq.
    pose proof (proj1 (NoDup_nth_error _) Hsorted_nd (S j) j Hlt
                  (eq_sym Hq)). lia.
Qed.

(** X19. A post whose category is none of the three labels is listed
    under the facet [all] and under no other facet. *)
Theorem unlabelled_post_only_under_all (posts : list Post) (p : Post)
  (c : Facet) :
  ~ In (Posts.category p) category_labels -> In p posts ->
  In p (filteredPosts posts all) /\
  (c <> all -> ~ In p (filteredPosts posts c)).
Proof.
  intros Hcat Hin. split.
  - unfold filteredPosts. simpl.
    now apply (Permutation_in _ (Permutation_sym (sort_perm by_date_desc posts))).
  - intros Hc Hp. apply Hcat.
    destruct c; [contradiction| | |]; unfold filteredPosts in Hp; simpl in Hp;
      apply filter_In in Hp; destruct Hp as [_ Heq];
      apply String.eqb_eq in Heq; rewrite Heq; simpl; auto.
Qed.

End ViewsSpec.

(** ** More on the loader *)
Module LoaderMore.
Import JS.
Import Posts.
Import HomeClient.
Import JSFacts.
Import LoaderSpec.
Import UtilsSpec.

Lemma map_throwing_all_Ok {A B : Type} (f : A -> result B) (l : list A) :
  (forall a, In a l -> exists b, f a = Ok b) ->
  exists bs, map_throwing f l = Ok bs.
Proof.
  induction l as [|x t IH]; intros Hall; simpl.
  - now exists [].
  - destruct (Hall x (or_introl eq_refl)) as [b ->].
    destruct IH as [bs ->]; [intros a Ha; apply Hall; now right|].
    simpl. now exists (b :: bs).
Qed.

(** *** Sorting a list that is in order already *)

(** [a] is strictly newer than [b]. *)
Lemma not_older_distinct (a b : Post) :
  not_older a b -> date a <> date b -> str_lt (date b) (date a) = true.
Proof.
  unfold not_older, str_ge, str_lt, String.ltb. intros Hge Hne.
  rewrite String.compare_antisym.
  destruct (String.compare (date a) (date b)) eqn:Hc;
    [|discriminate|reflexivity].
  now apply String.compare_eq_iff in Hc.
Qed.

Lemma insert_last (x : Post) (acc : list Post) :
  (forall e, In e acc -> str_lt (date x) (date e) = true) ->
  insert by_date_desc x acc = acc ++ [x].
Proof.
  induction acc as [|e t IH]; simpl; intros H; [reflexivity|].
  unfold by_date_desc at 1. rewrite (H e (or_introl eq_refl)). simpl.
  f_equal. apply IH. intros e' He'. apply H. now right.
Qed.

Lemma fold_insert_in_order (l acc : list Post) :
  StronglySorted (fun a b => str_lt (date b) (date a) = true) (acc ++ l) ->
  fold_left (fun acc x => insert by_date_desc x acc) l acc = acc ++ l.
Proof.
  revert acc. induction l as [|x t IH]; intros acc Hs; simpl.
  - now rewrite app_nil_r.
  - rewrite insert_last.
    + rewrite IH; rewrite <- app_assoc; [reflexivity|exact Hs].
    + intros e He.
      exact (ViewsSpec.StronglySorted_app_inv _ acc (x :: t) Hs e x He
               (or_introl eq_refl)).
Qed.

Lemma strictly_sorted (l : list Post) :
  StronglySorted not_older l -> NoDup (map date l) ->
  StronglySorted (fun a b => str_lt (date b) (date a) = true) l.
Proof.
  induction 1 as [|x t Hs IH Hall]; intros Hnd; [constructor|].
  simpl in Hnd. inversion Hnd as [|? ? Hx Ht]; subst.
  constructor; [now apply IH|].
  rewrite Forall_forall in *. intros y Hy.
  apply not_older_distinct; [now apply Hall|].
  intros Heq. apply Hx. rewrite Heq. now apply in_map.
Qed.

Lemma sort_sorted_distinct (l : list Post) :
  NoDup (map date l) ->
  sort by_date_desc (sort by_date_desc l) = sort by_date_desc l.
Proof.
  intros Hnd. unfold sort at 1.
  apply (fold_insert_in_order (sort by_date_desc l) []). simpl.
  apply strictly_sorted; [apply sort_by_date_strongly_sorted|].
  apply (Permutation_NoDup
           (Permutation_map date (Permutation_sym (sort_perm by_date_desc l)))).
  exact Hnd.
Qed.

Section LoaderMoreFacts.
Variable cwd : string.
Variable fs : FileSystem.
Variable matter : string -> result (FrontMatter * string).
Variable marked : string -> string.

(** X20. The load goes through exactly on the markdown files: when the
    directory can be listed and every file whose name ends in [.md] can
    be read and parsed, nothing is written to the console and there is
    one post per such file, whatever reading the other files would do,
    for they are not read. *)
Theorem getAllPosts_one_post_per_markdown_file (fileNames : list string) :
  readdirSync fs (postsDirectory cwd) = Ok fileNames ->
  (forall fileName, In fileName fileNames ->
     endsWith fileName ".md" = true ->
     exists p, load_file cwd fs matter marked fileName = Ok p) ->
  snd (getAllPosts cwd fs matter marked) = [] /\
  exists loaded,
    Forall2 (fun fileName p => load_file cwd fs matter marked fileName = Ok p)
      (filter (fun fileName => endsWith fileName ".md") fileNames) loaded /\
    Permutation (fst (getAllPosts cwd fs matter marked)) loaded /\
    List.length (fst (getAllPosts cwd fs matter marked)) =
      List.length (filter (fun fileName => endsWith fileName ".md") fileNames).
Proof.
  intros Hdir Hall.
  destruct (map_throwing_all_Ok (load_file cwd fs matter marked)
              (filter (fun fileName => endsWith fileName ".md") fileNames))
    as [loaded Hm].
  { intros f Hf. apply filter_In in Hf. now apply Hall. }
  unfold getAllPosts, try_getAllPosts. rewrite Hdir. simpl. rewrite Hm. simpl.
  split; [reflexivity|]. exists loaded.
  pose proof (map_throwing_Ok _ _ _ Hm) as HF.
  split; [exact HF|]. split; [apply sort_perm|].
  rewrite (Permutation_length (sort_perm by_date_desc loaded)).
  symmetry. exact (Forall2_length HF).
Qed.

(** X21. In every returned post, [html] is the rendering of [content]:
    the two fields are filled together from the body of the file. *)
Theorem getAllPosts_html_of_content (p : Post) :
  In p (fst (getAllPosts cwd fs matter marked)) ->
  html p = marked (content p).
Proof.
  intros Hin.
  destruct (getAllPosts_In cwd fs matter marked p Hin)
    as (fileNames & fileName & text & data & body & _ & _ & _ & _ & _ & ->).
  reflexivity.
Qed.

(** X22. Looking up the slug of a returned post finds a post with that
    slug among the returned ones, and with unique slugs that very post;
    the console shows what the load wrote and nothing more. *)
Theorem getPostBySlug_finds_loaded (p : Post) :
  In p (fst (getAllPosts cwd fs matter marked)) ->
  exists found,
    fst (getPostBySlug cwd fs matter marked (slug p)) = Some found /\
    slug found = slug p /\
    In found (fst (getAllPosts cwd fs matter marked)) /\
    (NoDup (map slug (fst (getAllPosts cwd fs matter marked))) -> found = p) /\
    snd (getPostBySlug cwd fs matter marked (slug p)) =
      snd (getAllPosts cwd fs matter marked).
Proof.
  unfold getPostBySlug.
  destruct (getAllPosts cwd fs matter marked) as [posts out]. simpl.
  intros Hin.
  destruct (find (fun q => String.eqb (slug q) (slug p)) posts) as [found|] eqn:Hf.
  - exists found. apply find_some in Hf. destruct Hf as [Hfin Heq].
    apply String.eqb_eq in Heq. repeat split; try assumption.
    intros Hnd. now apply (ViewsSpec.unique_slug posts found p Hnd).
  - pose proof (find_none _ _ Hf p Hin) as Hp. simpl in Hp.
    now rewrite String.eqb_refl in Hp.
Qed.

(** X23. When the directory cannot be read, the lookup of any slug
    returns nothing and the console holds the one line of the load,
    [Error reading posts:]; the lookup's own [catch] writes nothing. *)
Theorem getPostBySlug_unreadable_directory (error : exn) (s : string) :
  readdirSync fs (postsDirectory cwd) = Throw error ->
  getPostBySlug cwd fs matter marked s =
    (None, [("Error reading posts:", error)]).
Proof.
  intros H. unfold getPostBySlug, getAllPosts, try_getAllPosts.
  now rewrite H.
Qed.

(** X24. With pairwise distinct dates, the second sort, the one the host
    component runs on the posts it is given, changes nothing in the
    loader's result: under the facet [all] the log list is the loaded
    list as it is. *)
Theorem filteredPosts_keeps_loaded_order :
  NoDup (map date (fst (getAllPosts cwd fs matter marked))) ->
  filteredPosts (fst (getAllPosts cwd fs matter marked)) all =
    fst (getAllPosts cwd fs matter marked).
Proof.
  unfold filteredPosts. simpl. unfold getAllPosts.
  destruct (try_getAllPosts cwd fs matter marked) as [posts|e] eqn:Ht; simpl;
    [|reflexivity].
  destruct (try_getAllPosts_Ok cwd fs matter marked posts Ht)
    as (fileNames & loaded & _ & _ & ->).
  intros Hnd. apply sort_sorted_distinct.
  apply (Permutation_NoDup
           (Permutation_map date (sort_perm by_date_desc loaded))).
  exact Hnd.
Qed.

(** X25. When no front-matter sets a slug, the slugs of the returned posts
    are pairwise distinct: each is its file name without the [.md], and a
    directory lists a name once. *)
Theorem default_slugs_unique (fileNames : list string) :
  readdirSync fs (postsDirectory cwd) = Ok fileNames ->
  NoDup fileNames ->
  (forall fileName text data body,
     In fileName fileNames ->
     readFileSync fs (path_join (postsDirectory cwd) fileName) = Ok text ->
     matter text = Ok (data, body) -> fm_slug data = None) ->
  NoDup (map slug (fst (getAllPosts cwd fs matter marked))).
Proof.
  intros Hdir Hnd Hslug. unfold getAllPosts.
  destruct (try_getAllPosts cwd fs matter marked) as [posts|e] eqn:Ht; simpl;
    [|constructor].
  destruct (try_getAllPosts_Ok cwd fs matter marked posts Ht)
    as (names & loaded & Hd & Hl & ->).
  rewrite Hdir in Hd. injection Hd as <-.
  apply (Permutation_NoDup
           (Permutation_map slug (Permutation_sym (sort_perm by_date_desc loaded)))).
  apply NoDup_map_inv with (f := fun s => (s ++ ".md")%string).
  rewrite map_map.
  replace (map (fun p => (slug p ++ ".md")%string) loaded)
    with (filter (fun fileName => endsWith fileName ".md") fileNames);
    [now apply NoDup_filter|].
  assert (Hsub : forall f, In f (filter (fun fileName => endsWith fileName ".md")
                                   fileNames) ->
                           In f fileNames /\ endsWith f ".md" = true).
  { intros f Hf. now apply filter_In in Hf. }
  remember (filter (fun fileName => endsWith fileName ".md") fileNames)
    as mds eqn:Hmds.
  clear Hmds Ht. revert Hsub.
  induction Hl as [|f p fs' ps Hload Hrest IH]; intros Hsub; [reflexivity|].
  simpl. f_equal.
  - destruct (Hsub f (or_introl eq_refl)) as [Hin Hmd].
    destruct (load_file_Ok cwd fs matter marked f p Hload)
      as (text & data & body & Hr & Hm & ->).
    unfold post_of. cbn [slug].
    rewrite (Hslug f text data body Hin Hr Hm). simpl.
    symmetry. now apply replace_at_end_restores.
  - apply IH. intros f' Hf'. apply Hsub. now right.
Qed.

End LoaderMoreFacts.

(** X26. The date of a post built from a YAML timestamp is the part of
    its ISO form before the first [T]: it holds no [T], and for an ISO
    form [day ++ "T" ++ time] it is [day]. *)
Theorem date_of_timestamp (fileName body rendered day time : string)
  (data : FrontMatter) :
  fm_date data = Some (DateObject (day ++ String "T"%char time)) ->
  has "T"%char day = false ->
  date (post_of fileName data body rendered) = day /\
  has "T"%char (date (post_of fileName data body rendered)) = false.
Proof.
  intros Hd Hday. unfold post_of. cbn [date]. rewrite Hd. cbn [date_of].
  rewrite (split_app_sep _ _ _ Hday). simpl. now split.
Qed.

End LoaderMore.

(** ** The page of one post, the metadata and the sitemap *)
Module PagesSpec.
Import JS.
Import Posts.
Import HomeClient.
Import BlogPost.
Import JSFacts.
Import LoaderSpec.
Import RouterSpec.

Lemma find_slug_In (posts : list Post) (s : string) :
  In s (map slug posts) <->
  exists found, find (fun p => String.eqb (slug p) s) posts = Some found /\
                slug found = s.
Proof.
  split.
  - intros Hin. apply in_map_iff in Hin. destruct Hin as (p & <- & Hp).
    destruct (find (fun q => String.eqb (slug q) (slug p)) posts) as [found|] eqn:Hf.
    + exists found. split; [reflexivity|].
      apply find_some in Hf. now apply String.eqb_eq.
    + pose proof (find_none _ _ Hf p Hp) as Hq. simpl in Hq.
      now rewrite String.eqb_refl in Hq.
  - intros (found & Hf & <-). apply find_some in Hf. now apply in_map.
Qed.

Lemma string_length_app (a b : string) :
  String.length (a ++ b) = (String.length a + String.length b)%nat.
Proof.
  induction a as [|c a IH]; simpl; [reflexivity|now rewrite IH].
Qed.

(** Each function of the page and of the sitemap performs a load of its
    own when it is called, and between two calls the files and what the
    parser answers may differ: [fs] and [matter] are those of the first
    call, [fs'] and [matter'] those of the second, [fs''] and [matter'']
    those of a third. What the statements below say of two calls, they
    say of calls whose loads return the same posts. *)
Section PagesFacts.
Variable cwd : string.
Variable marked : string -> string.
Variable fs fs' fs'' : FileSystem.
Variable matter matter' matter'' : string -> result (FrontMatter * string).

(** X27. When the load of [generateStaticParams] and the load of
    [BlogPostPage] return the same posts, the pages that are generated are
    the pages that exist: a slug gives the not-found page exactly when
    [generateStaticParams] does not list it, and a listed slug gives the
    page that redirects to [/#log/slug]. *)
Theorem BlogPostPage_found_iff_generated (s : string) :
  fst (getAllPosts cwd fs matter marked) =
    fst (getAllPosts cwd fs' matter' marked) ->
  (BlogPostPage cwd fs' matter' marked s = NotFound <->
   ~ In s (generateStaticParams cwd fs matter marked)) /\
  (In s (generateStaticParams cwd fs matter marked) ->
   exists heading paragraph,
     BlogPostPage cwd fs' matter' marked s =
       RedirectPage ("/#log/" ++ s) heading paragraph ("/#log/" ++ s)).
Proof.
  intros Hsame.
  unfold BlogPostPage, generateStaticParams. cbv zeta. rewrite Hsame.
  pose proof (find_slug_In (fst (getAllPosts cwd fs' matter' marked)) s) as Hiff.
  destruct (find (fun p => String.eqb (slug p) s)
              (fst (getAllPosts cwd fs' matter' marked))) as [found|] eqn:Hf.
  - split.
    + split; [discriminate|]. intros Hn. destruct Hn. apply Hiff.
      exists found. split; [reflexivity|].
      apply find_some in Hf. now apply String.eqb_eq.
    + intros _. now exists (title found), (excerpt found).
  - split.
    + split; [|reflexivity]. intros _ Hin. apply Hiff in Hin.
      destruct Hin as (found & Hc & _). discriminate Hc.
    + intros Hin. apply Hiff in Hin.
      destruct Hin as (found & Hc & _). discriminate Hc.
Qed.

(** X29. When the load of [generateMetadata] and the load of
    [BlogPostPage] return the same posts, the two agree on what exists:
    the title is [Post Not Found] exactly when the page is the not-found
    page, and for a post that is found the canonical address ends in its
    slug. *)
Theorem generateMetadata_agrees_with_page (s : string) :
  fst (getAllPosts cwd fs matter marked) =
    fst (getAllPosts cwd fs' matter' marked) ->
  (md_title (generateMetadata cwd fs matter marked s) = "Post Not Found" <->
   BlogPostPage cwd fs' matter' marked s = NotFound) /\
  (BlogPostPage cwd fs' matter' marked s <> NotFound ->
   og_url (generateMetadata cwd fs matter marked s) =
     Some (siteUrl ++ "/log/" ++ s)%string).
Proof.
  intros Hsame.
  unfold generateMetadata, BlogPostPage. cbv zeta. rewrite Hsame.
  destruct (find (fun p => String.eqb (slug p) s)
              (fst (getAllPosts cwd fs' matter' marked))) as [found|] eqn:Hf.
  - cbn [md_title og_url]. split.
    + split; [|discriminate]. intros Ht.
      apply (f_equal String.length) in Ht.
      rewrite string_length_app in Ht. simpl in Ht. lia.
    + intros _. apply find_some in Hf. destruct Hf as [_ Heq].
      apply String.eqb_eq in Heq. now rewrite Heq.
  - cbn [md_title og_url]. split; [split; reflexivity|].
    intros H. now destruct H.
Qed.

(** X30. When the loads of [sitemap], of [generateStaticParams] and of
    [BlogPostPage] return the same posts, the sitemap lists the two fixed
    addresses and then one address per generated page, in the order of
    the load: it has two entries more than there are generated pages, and
    every post address in it is [siteUrl/log/slug] for a slug whose page
    exists. *)
Theorem sitemap_lists_generated_pages :
  fst (getAllPosts cwd fs matter marked) =
    fst (getAllPosts cwd fs' matter' marked) ->
  fst (getAllPosts cwd fs matter marked) =
    fst (getAllPosts cwd fs'' matter'' marked) ->
  List.length (sitemap cwd fs matter marked) =
    (2 + List.length (generateStaticParams cwd fs' matter' marked))%nat /\
  map url (sitemap cwd fs matter marked) =
    siteUrl :: (siteUrl ++ "/log")%string ::
    map (fun s => (siteUrl ++ "/log/" ++ s)%string)
        (generateStaticParams cwd fs' matter' marked) /\
  (forall entry, In entry (skipn 2 (sitemap cwd fs matter marked)) ->
     exists s, url entry = (siteUrl ++ "/log/" ++ s)%string /\
               BlogPostPage cwd fs'' matter'' marked s <> NotFound).
Proof.
  intros Hparams Hpage.
  unfold sitemap, generateStaticParams. cbv zeta. rewrite <- Hparams.
  split; [cbn [List.length]; rewrite !length_map; reflexivity|].
  split; [cbn [map url]; rewrite !map_map; reflexivity|].
  cbn [skipn]. intros entry Hin.
  apply in_map_iff in Hin. destruct Hin as (p & <- & Hp).
  exists (slug p). split; [reflexivity|].
  unfold BlogPostPage. cbv zeta. rewrite <- Hpage.
  destruct (find (fun q => String.eqb (slug q) (slug p))
              (fst (getAllPosts cwd fs matter marked))) as [found|] eqn:Hf;
    [discriminate|].
  pose proof (find_none _ _ Hf p Hp) as Hq. simpl in Hq.
  now rewrite String.eqb_refl in Hq.
Qed.

End PagesFacts.

End PagesSpec.

(** ** The further statements on concrete inputs *)
Module MoreChecks.
Import JS.
Import Posts.
Import HomeClient.
Import Utils.
Import Components.
Import BlogPost.
Import Fixtures.
Import UtilsSpec.
Import RouterMore.
Import ViewsSpec.
Import LoaderMore.
Import PagesSpec.

Lemma cn_tokens_witness :
  filter_Boolean [Some "px-2"; None; Some ""; Some "underline"] <> [] /\
  split " "%char (cn [Some "px-2"; None; Some ""; Some "underline"]) =
    ["px-2"; "underline"].
Proof.
  split; [discriminate|].
  apply (cn_tokens [Some "px-2"; None; Some ""; Some "underline"]).
  - discriminate.
  - repeat constructor.
Defined.


Lemma daysBetween_additive_witness :
  daysBetween (mkJSDate 2026 0 25) (mkJSDate 2026 10 3) =
  (daysBetween (mkJSDate 2026 0 25) (mkJSDate 2026 1 10) +
   daysBetween (mkJSDate 2026 1 10) (mkJSDate 2026 10 3) - 1)%Z.
Proof.
  apply daysBetween_additive; vm_compute; discriminate.
Defined.

Lemma daysBetween_one_year_later_witness :
  daysBetween (mkJSDate 2027 2 1) (mkJSDate 2028 2 1) = 367%Z.
Proof.
  apply (daysBetween_one_year_later 2027 2 1); lia.
Defined.

Lemma clamp_within_witness :
  (0 <= clamp (250 # 1) 0 100)%Q /\ (clamp (250 # 1) 0 100 <= 100)%Q /\
  (clamp (25 # 2) 0 100 == 25 # 2)%Q.
Proof.
  destruct (clamp_within (250 # 1) 0 100) as (Hlo & Hhi & _); [discriminate|].
  destruct (clamp_within (25 # 2) 0 100) as (_ & _ & Hid); [discriminate|].
  split; [exact Hlo|]. split; [exact Hhi|].
  apply Hid; discriminate.
Defined.



Lemma fragment_never_sets_bad_slug_witness :
  route (open_page "#log/a/b") = post "a" /\
  "a" <> EmptyString /\ has "/"%char "a" = false.
Proof.
  split; [reflexivity|].
  apply (proj1 (fragment_never_sets_bad_slug "#log/a/b" "a" some_world)).
  reflexivity.
Defined.

Lemma later_segments_ignored_witness :
  split "/"%char "log/day-1/extra/more" = ["log"; "day-1"; "extra"; "more"] /\
  route (open_page "#log/day-1/extra/more") = route (open_page "#log/day-1") /\
  route (hashchange_event "#log/day-1/extra/more" some_world) =
    route (hashchange_event "#log/day-1" some_world).
Proof.
  split; [reflexivity|].
  apply (later_segments_ignored "log/day-1/extra/more" "log" "day-1"
           ["extra"; "more"] some_world).
  reflexivity.
Defined.

Lemma written_fragment_injective_witness :
  location_hash (sync_hash (setRoute (post "a") some_world)) =
    location_hash (sync_hash (navigate (post "a") some_world)) /\
  route (setRoute (post "a") some_world) =
    route (navigate (post "a") some_world).
Proof.
  split; [reflexivity|].
  apply written_fragment_injective.
  - intros s H. injection H as <-. reflexivity.
  - intros s H. injection H as <-. reflexivity.
  - reflexivity.
Defined.

Lemma hashchange_from_home_as_open_witness :
  route (setRoute home some_world) = home /\
  route (hashchange_event "#skills" (setRoute home some_world)) =
    route (open_page "#skills").
Proof.
  split; [reflexivity|].
  apply hashchange_from_home_as_open. reflexivity.
Defined.

Lemma nav_highlights_at_most_one_witness :
  filter (active (post "day-1")) nav_keys = [] /\
  (List.length (filter (active log) nav_keys) <= 1)%nat.
Proof.
  split.
  - apply (proj2 (proj2 (nav_highlights_at_most_one (post "day-1")))).
    right. now exists "day-1".
  - exact (proj1 (nav_highlights_at_most_one log)).
Defined.

Lemma render_main_one_block_witness :
  (forall q, In q three_posts -> slug q <> "nonexistent-slug") /\
  render_main three_posts (post "nonexistent-slug") all = [].
Proof.
  assert (Hnone : forall q, In q three_posts -> slug q <> "nonexistent-slug").
  { intros q [<-|[<-|[<-|[]]]]; discriminate. }
  split; [exact Hnone|].
  apply (proj2 (proj2 (render_main_one_block three_posts
                         (post "nonexistent-slug") all))).
  exists "nonexistent-slug". split; [reflexivity|exact Hnone].
Defined.

Lemma home_preview_newest_witness :
  In newest (home_preview (stub "z" "2025-12-31" "rust" :: three_posts) all) /\
  In (stub "z" "2025-12-31" "rust")
     (skipn 3 (filteredPosts (stub "z" "2025-12-31" "rust" :: three_posts) all)) /\
  str_ge (date newest) (date (stub "z" "2025-12-31" "rust")) = true.
Proof.
  assert (H1 : In newest
                 (home_preview (stub "z" "2025-12-31" "rust" :: three_posts) all))
    by (left; reflexivity).
  assert (H2 : In (stub "z" "2025-12-31" "rust")
                 (skipn 3 (filteredPosts
                             (stub "z" "2025-12-31" "rust" :: three_posts) all)))
    by (left; reflexivity).
  split; [exact H1|]. split; [exact H2|].
  exact (proj2 (proj2 (home_preview_newest
                         (stub "z" "2025-12-31" "rust" :: three_posts) all))
           _ _ H1 H2).
Defined.

Lemma listed_post_opens_witness :
  In oldest (filteredPosts three_posts rust) /\
  exists cur section,
    currentPost three_posts (route (onOpen (slug oldest) some_world)) = Some cur /\
    slug cur = slug oldest /\
    render_post_section three_posts (route (onOpen (slug oldest) some_world))
      = Some section /\
    shown_title section = title cur /\ shown_html section = html cur /\
    (NoDup (map slug three_posts) -> cur = oldest).
Proof.
  assert (Hin : In oldest (filteredPosts three_posts rust))
    by (right; left; reflexivity).
  split; [exact Hin|].
  exact (listed_post_opens three_posts rust oldest some_world Hin).
Defined.

Lemma pagination_targets_exist_witness :
  exists section cur,
    render_post_section three_posts (post "b") = Some section /\
    previous_button section = Some "a" /\
    currentPost three_posts (post "a") = Some cur /\ slug cur = "a".
Proof.
  destruct (pagination_targets_exist three_posts (post "b")
              {| shown_title := "b"; shown_date := "2026-02-10";
                 shown_readTime := "5 min"; shown_category := "personal";
                 shown_tags := []; shown_html := "";
                 previous_button := Some "a"; next_button := Some "c" |} "a")
    as (cur & Hc & Hs).
  - reflexivity.
  - left. reflexivity.
  - eexists _, cur. split; [reflexivity|]. split; [reflexivity|].
    split; [exact Hc|exact Hs].
Defined.

Lemma three_slugs_NoDup : NoDup (map slug three_posts).
Proof.
  repeat constructor; simpl; intuition discriminate.
Defined.

Lemma previous_and_next_are_inverse_witness :
  prev (postNavigation three_posts (currentPost three_posts (post (slug middle))))
    = Some oldest /\
  next (postNavigation three_posts (currentPost three_posts (post (slug oldest))))
    = Some middle.
Proof.
  split; [reflexivity|].
  apply (proj1 (previous_and_next_are_inverse three_posts middle oldest
                  three_slugs_NoDup (or_intror (or_introl eq_refl)))).
  reflexivity.
Defined.

Lemma unlabelled_post_only_under_all_witness :
  ~ In (Posts.category (stub "g" "2026-03-01" "golang")) category_labels /\
  In (stub "g" "2026-03-01" "golang")
     (filteredPosts (stub "g" "2026-03-01" "golang" :: three_posts) all) /\
  ~ In (stub "g" "2026-03-01" "golang")
       (filteredPosts (stub "g" "2026-03-01" "golang" :: three_posts) personal).
Proof.
  assert (Hcat : ~ In (Posts.category (stub "g" "2026-03-01" "golang"))
                      category_labels).
  { simpl. intros [H|[H|[H|[]]]]; discriminate. }
  split; [exact Hcat|].
  destruct (unlabelled_post_only_under_all
              (stub "g" "2026-03-01" "golang" :: three_posts)
              (stub "g" "2026-03-01" "golang") personal Hcat
              (or_introl eq_refl)) as [Hall Hother].
  split; [exact Hall|]. apply Hother. discriminate.
Defined.

Lemma good_files_all_load (fileName : string) :
  In fileName (map fst good_files) ->
  endsWith fileName ".md" = true ->
  exists p, load_file "/site" (toy_fs good_files) toy_matter toy_marked fileName
            = Ok p.
Proof.
  intros [<-|[<-|[<-|[<-|[]]]]] Hmd; try discriminate Hmd;
    eexists; reflexivity.
Defined.

Lemma getAllPosts_one_post_per_markdown_file_witness :
  snd (getAllPosts "/site" (toy_fs good_files) toy_matter toy_marked) = [] /\
  List.length (fst (getAllPosts "/site" (toy_fs good_files) toy_matter toy_marked))
    = 3%nat.
Proof.
  destruct (getAllPosts_one_post_per_markdown_file "/site" (toy_fs good_files)
              toy_matter toy_marked (map fst good_files) eq_refl
              good_files_all_load) as (Hlog & loaded & _ & _ & Hlen).
  split; [exact Hlog|exact Hlen].
Defined.

Lemma getAllPosts_html_of_content_witness :
  In (post_of "day-1.md" fm_day1 "# Day 1" "<p># Day 1</p>")
     (fst (getAllPosts "/site" (toy_fs good_files) toy_matter toy_marked)) /\
  "<p># Day 1</p>" = toy_marked "# Day 1".
Proof.
  assert (Hin : In (post_of "day-1.md" fm_day1 "# Day 1" "<p># Day 1</p>")
                  (fst (getAllPosts "/site" (toy_fs good_files) toy_matter
                          toy_marked)))
    by (right; left; reflexivity).
  split; [exact Hin|].
  exact (getAllPosts_html_of_content "/site" (toy_fs good_files) toy_matter
           toy_marked _ Hin).
Defined.

Lemma getPostBySlug_finds_loaded_witness :
  exists found,
    fst (getPostBySlug "/site" (toy_fs good_files) toy_matter toy_marked
           "untitled") = Some found /\
    slug found = "untitled".
Proof.
  destruct (getPostBySlug_finds_loaded "/site" (toy_fs good_files) toy_matter
              toy_marked (post_of "untitled.md" fm_empty "hello" "<p>hello</p>"))
    as (found & Hf & Hs & _).
  - right; right; left; reflexivity.
  - exists found. split; [exact Hf|exact Hs].
Defined.

Lemma getPostBySlug_unreadable_directory_witness :
  readdirSync missing_fs (postsDirectory "/site") = Throw "ENOENT" /\
  getPostBySlug "/site" missing_fs toy_matter toy_marked "day-1" =
    (None, [("Error reading posts:", "ENOENT")]).
Proof.
  split; [reflexivity|].
  apply getPostBySlug_unreadable_directory. reflexivity.
Defined.

Lemma good_files_dates_NoDup :
  NoDup (map date
           (fst (getAllPosts "/site" (toy_fs good_files) toy_matter toy_marked))).
Proof.
  repeat constructor; simpl; intuition discriminate.
Defined.

Lemma filteredPosts_keeps_loaded_order_witness :
  filteredPosts
    (fst (getAllPosts "/site" (toy_fs good_files) toy_matter toy_marked)) all =
  fst (getAllPosts "/site" (toy_fs good_files) toy_matter toy_marked).
Proof.
  apply filteredPosts_keeps_loaded_order. exact good_files_dates_NoDup.
Defined.

Lemma two_names_NoDup : NoDup ["alpha.md"; "beta.md"].
Proof.
  repeat constructor; simpl; intuition discriminate.
Defined.

Lemma bare_files_set_no_slug (fileName text : string) (data : FrontMatter)
  (body : string) :
  In fileName ["alpha.md"; "beta.md"] ->
  readFileSync (toy_fs [("alpha.md", "bare"); ("beta.md", "bare")])
    (path_join (postsDirectory "/site") fileName) = Ok text ->
  toy_matter text = Ok (data, body) -> fm_slug data = None.
Proof.
  intros [<-|[<-|[]]] Hr Hm; vm_compute in Hr; injection Hr as <-;
    vm_compute in Hm; injection Hm as <- _; reflexivity.
Defined.

Lemma default_slugs_unique_witness :
  map slug (fst (getAllPosts "/site"
                   (toy_fs [("alpha.md", "bare"); ("beta.md", "bare")])
                   toy_matter toy_marked)) = ["beta"; "alpha"] /\
  NoDup (map slug (fst (getAllPosts "/site"
                          (toy_fs [("alpha.md", "bare"); ("beta.md", "bare")])
                          toy_matter toy_marked))).
Proof.
  split; [reflexivity|].
  exact (default_slugs_unique "/site"
           (toy_fs [("alpha.md", "bare"); ("beta.md", "bare")])
           toy_matter toy_marked ["alpha.md"; "beta.md"] eq_refl
           two_names_NoDup bare_files_set_no_slug).
Defined.

Lemma date_of_timestamp_witness :
  date (post_of "day-1.md" fm_day1 "# Day 1" "<p># Day 1</p>") = "2026-01-25" /\
  has "T"%char (date (post_of "day-1.md" fm_day1 "# Day 1" "<p># Day 1</p>"))
    = false.
Proof.
  apply (date_of_timestamp "day-1.md" "# Day 1" "<p># Day 1</p>" "2026-01-25"
           "00:00:00.000Z" fm_day1); reflexivity.
Defined.

Lemma BlogPostPage_found_iff_generated_witness :
  fst (getAllPosts "/site" (toy_fs good_files) toy_matter toy_marked) =
    fst (getAllPosts "/site" (toy_fs (good_files ++ [("readme.txt", "x")]))
           toy_matter toy_marked) /\
  In "untitled"
     (generateStaticParams "/site" (toy_fs good_files) toy_matter toy_marked) /\
  (exists heading paragraph,
      BlogPostPage "/site" (toy_fs (good_files ++ [("readme.txt", "x")]))
        toy_matter toy_marked "untitled"
      = RedirectPage "/#log/untitled" heading paragraph "/#log/untitled") /\
  BlogPostPage "/site" (toy_fs (good_files ++ [("readme.txt", "x")]))
    toy_matter toy_marked "nowhere" = NotFound.
Proof.
  split; [reflexivity|].
  assert (Hin : In "untitled"
                  (generateStaticParams "/site" (toy_fs good_files) toy_matter
                     toy_marked))
    by (right; right; left; reflexivity).
  split; [exact Hin|]. split.
  - exact (proj2 (BlogPostPage_found_iff_generated "/site" toy_marked
                    (toy_fs good_files)
                    (toy_fs (good_files ++ [("readme.txt", "x")]))
                    toy_matter toy_matter "untitled" eq_refl) Hin).
  - apply (proj2 (proj1 (BlogPostPage_found_iff_generated "/site" toy_marked
                           (toy_fs good_files)
                           (toy_fs (good_files ++ [("readme.txt", "x")]))
                           toy_matter toy_matter "nowhere" eq_refl))).
    simpl. intros [H|[H|[H|[]]]]; discriminate.
Defined.

Lemma generateMetadata_agrees_with_page_witness :
  fst (getAllPosts "/site" (toy_fs good_files) toy_matter toy_marked) =
    fst (getAllPosts "/site" (toy_fs (good_files ++ [("readme.txt", "x")]))
           toy_matter toy_marked) /\
  md_title (generateMetadata "/site" (toy_fs good_files) toy_matter toy_marked
              "nowhere") = "Post Not Found" /\
  og_url (generateMetadata "/site" (toy_fs good_files) toy_matter toy_marked
            "untitled") =
    Some "https://scrapychain.github.io/ashutosh-rana-dev/log/untitled".
Proof.
  split; [reflexivity|]. split.
  - apply (proj2 (proj1 (generateMetadata_agrees_with_page "/site" toy_marked
                           (toy_fs good_files)
                           (toy_fs (good_files ++ [("readme.txt", "x")]))
                           toy_matter toy_matter "nowhere" eq_refl))).
    reflexivity.
  - apply (proj2 (generateMetadata_agrees_with_page "/site" toy_marked
                    (toy_fs good_files)
                    (toy_fs (good_files ++ [("readme.txt", "x")]))
                    toy_matter toy_matter "untitled" eq_refl)).
    discriminate.
Defined.

Lemma sitemap_lists_generated_pages_witness :
  fst (getAllPosts "/site" (toy_fs good_files) toy_matter toy_marked) =
    fst (getAllPosts "/site" (toy_fs (good_files ++ [("readme.txt", "x")]))
           toy_matter toy_marked) /\
  List.length (sitemap "/site" (toy_fs good_files) toy_matter toy_marked) = 5%nat /\
  forall entry,
    In entry (skipn 2 (sitemap "/site" (toy_fs good_files) toy_matter toy_marked)) ->
    exists s, url entry = (siteUrl ++ "/log/" ++ s)%string /\
              BlogPostPage "/site" (toy_fs good_files) toy_matter toy_marked s
              <> NotFound.
Proof.
  split; [reflexivity|]. split.
  - exact (proj1 (sitemap_lists_generated_pages "/site" toy_marked
                    (toy_fs good_files)
                    (toy_fs (good_files ++ [("readme.txt", "x")]))
                    (toy_fs good_files) toy_matter toy_matter toy_matter
                    eq_refl eq_refl)).
  - exact (proj2 (proj2 (sitemap_lists_generated_pages "/site" toy_marked
                           (toy_fs good_files)
                           (toy_fs (good_files ++ [("readme.txt", "x")]))
                           (toy_fs good_files) toy_matter toy_matter toy_matter
                           eq_refl eq_refl))).
Defined.

End MoreChecks.
